(** * vue-firestore: the change-application engine and the binding lifecycle

    A shallow embedding of [src/vue-firestore.js].  The file follows the
    source top-down: the array primitive the sequence strategy relies on
    ([Array.prototype.splice]), the per-event strategies of [collections]
    and [collectionOfObjects], the three binders and their listeners, the
    promise plumbing of [bind], and the owner's methods ([$binding],
    [$bindCollectionAsObject], [$unbind], [beforeDestroy]).  [created] and
    [install] only wire these into the host and are not embedded.

    Arrays are lists, plain objects used as maps are [gmap]s, JavaScript
    integers are [Z].  Mutable objects live on a heap, so that the array a
    listener captured, the value of [vm[key]] and the value a promise was
    resolved with can be one and the same object.  Effects are a state
    monad with exceptions over the record [World]. *)

From Stdlib Require Import ZArith Lia.
From stdpp Require Import base option list gmap strings.

Open Scope string_scope.
Open Scope list_scope.

(** ** Data delivered by the remote store *)

(** The module-level [defaultOptions] object ([keyName], [enumerable]),
    which [install] may overwrite and every call of [normalize] receives. *)
Record Options := mkOptions {
  keyName : string;
  enumerable : bool
}.

(** A document snapshot: [doc.id], [doc.data()], [doc.exists]. *)
Record DocSnapshot (Data : Type) := mkDoc {
  doc_id : string;
  doc_data : Data;
  doc_exists : bool
}.
Arguments mkDoc {Data} _ _ _.
Arguments doc_id {Data} _.
Arguments doc_data {Data} _.
Arguments doc_exists {Data} _.

(** One element of [doc.docChanges()]: [snapshot.type], [snapshot.oldIndex],
    [snapshot.newIndex], [snapshot.doc].  The type is the string the source
    switches on; the indices are JavaScript integers (the store reports -1
    for an index that does not apply). *)
Record Change (Data : Type) := mkChange {
  type : string;
  oldIndex : Z;
  newIndex : Z;
  doc : DocSnapshot Data
}.
Arguments mkChange {Data} _ _ _ _.
Arguments type {Data} _.
Arguments oldIndex {Data} _.
Arguments newIndex {Data} _.
Arguments doc {Data} _.

(** [normalize] is handed a change record by [collections] and a document
    snapshot by [documents]. *)
Inductive Snapshot (Data : Type) :=
  | OfChange (c : Change Data)
  | OfDocument (d : DocSnapshot Data).
Arguments OfChange {Data} _.
Arguments OfDocument {Data} _.

(** ** Array.prototype.splice

    [a.splice(start, deleteCount, ...items)] on a list.  A negative [start]
    counts from the end, a [start] past the end is the end, and no more
    elements are deleted than there are after [start].  The source discards
    the array of removed elements, so only the mutated array is returned. *)
Definition actualStart (len : nat) (start : Z) : nat :=
  if (start <? 0)%Z then Z.to_nat (Z.max (Z.of_nat len + start) 0)
  else Z.to_nat (Z.min start (Z.of_nat len)).

Definition splice {A : Type} (a : list A) (start : Z) (deleteCount : nat)
    (items : list A) : list A :=
  let s := actualStart (length a) start in
  let d := Nat.min deleteCount (length a - s) in
  take s a ++ items ++ drop (s + d) a.

(** ** The per-event strategies (the bodies of the two [forEach] callbacks) *)

Section Strategies.
Context {Data Value : Type}.

(** [normalize] lives in [utils/utils.js], which is not among the sources
    at hand: the strategies are parametric in it. *)
Variable normalize : Snapshot Data -> Options -> Value.

(** The [switch] of [collections], lines 39-56, on the array [container]. *)
Definition sequence_change (defaultOptions : Options) (container : list Value)
    (snapshot : Change Data) : list Value :=
  if String.eqb (type snapshot) "added" then
    splice container (newIndex snapshot) 0
      [normalize (OfChange snapshot) defaultOptions]
  else if String.eqb (type snapshot) "removed" then
    splice container (oldIndex snapshot) 1 []
  else if String.eqb (type snapshot) "modified" then
    if negb (Z.eqb (oldIndex snapshot) (newIndex snapshot)) then
      splice (splice container (oldIndex snapshot) 1 []) (newIndex snapshot) 0
        [normalize (OfChange snapshot) defaultOptions]
    else
      splice container (newIndex snapshot) 1
        [normalize (OfChange snapshot) defaultOptions]
  else container.

(** [doc.docChanges().forEach(...)]: the events in delivery order, each on
    the array the previous one left.  (The second argument the source
    passes to [forEach] is its [thisArg]; it is never called.) *)
Definition sequence_batch (defaultOptions : Options) (container : list Value)
    (changes : list (Change Data)) : list Value :=
  fold_left (sequence_change defaultOptions) changes container.

(** The [switch] of [collectionOfObjects], lines 87-99, on the object found
    at [vm[key]]: [Vue.set] is a property write, [Vue.delete] a property
    removal. *)
Definition keyed_change (target : gmap string Data) (snapshot : Change Data)
    : gmap string Data :=
  if String.eqb (type snapshot) "added" then
    <[doc_id (doc snapshot) := doc_data (doc snapshot)]> target
  else if String.eqb (type snapshot) "removed" then
    delete (doc_id (doc snapshot)) target
  else if String.eqb (type snapshot) "modified" then
    <[doc_id (doc snapshot) := doc_data (doc snapshot)]> target
  else target.

Definition keyed_batch (target : gmap string Data)
    (changes : list (Change Data)) : gmap string Data :=
  fold_left keyed_change changes target.

(** The sequence strategy once more, as a transition relation: one rule
    per arm of the [switch], and [forEach] as its reflexive-transitive
    closure along the batch. *)
Inductive sequence_step (defaultOptions : Options) :
    list Value -> Change Data -> list Value -> Prop :=
  | step_added c s :
      type s = "added" ->
      sequence_step defaultOptions c s
        (splice c (newIndex s) 0 [normalize (OfChange s) defaultOptions])
  | step_removed c s :
      type s = "removed" ->
      sequence_step defaultOptions c s (splice c (oldIndex s) 1 [])
  | step_moved c s :
      type s = "modified" -> oldIndex s <> newIndex s ->
      sequence_step defaultOptions c s
        (splice (splice c (oldIndex s) 1 []) (newIndex s) 0
           [normalize (OfChange s) defaultOptions])
  | step_replaced c s :
      type s = "modified" -> oldIndex s = newIndex s ->
      sequence_step defaultOptions c s
        (splice c (newIndex s) 1 [normalize (OfChange s) defaultOptions])
  | step_ignored c s :
      type s <> "added" -> type s <> "removed" -> type s <> "modified" ->
      sequence_step defaultOptions c s c.

Inductive sequence_run (defaultOptions : Options) :
    list Value -> list (Change Data) -> list Value -> Prop :=
  | run_done c : sequence_run defaultOptions c [] c
  | run_next c s c' rest c'' :
      sequence_step defaultOptions c s c' ->
      sequence_run defaultOptions c' rest c'' ->
      sequence_run defaultOptions c (s :: rest) c''.

End Strategies.

(** ** Sources handed to [bind] *)

(** A reference of the remote store.  [ref_where] is the truth value of
    [source.where]: queries and collection references have the method,
    document references do not. *)
Record Ref := mkRef {
  ref_path : string;
  ref_where : bool
}.

(** The third argument of [bind], [params]; [objects] is the truth value of
    [params.objects] (the default [{}] has none). *)
Record Params := mkParams {
  objects : bool
}.

(** The template literal of line 133. *)
Definition missing_message (key : string) : string :=
  String.append "The document ("
    (String.append key ") doesn't exist or permission was denied").

(** The three binders [bind] chooses from. *)
Inductive Strategy := Collections | CollectionOfObjects | Documents.

(** The pair of closures a binder passes to [source.onSnapshot], by what
    they capture: their binder, [source], [key], the [container] allocated
    by the binder and the promise whose [resolve] and [reject] they hold. *)
Record Listener := mkListener {
  l_source : Ref;
  l_strategy : Strategy;
  l_key : string;
  l_container : nat;
  l_promise : nat
}.

(** The second argument of [install], [options]: [options.key] (absent or
    a string) and [options.enumerable] (absent or a boolean). *)
Record InstallOptions := mkInstallOptions {
  opt_key : option string;
  opt_enumerable : option bool
}.

Section Lifecycle.
Context {Data Value : Type}.
Variable normalize : Snapshot Data -> Options -> Value.

(** The JavaScript values that reach [vm[key]], a promise or a callback. *)
Inductive jsval :=
  | JUndefined
  | JRef (l : nat)
  | JNormalized (v : Value)
  | JError (message : string).

(** What the binders allocate: the [[]] of [collections] and [documents],
    the [{}] of [collectionOfObjects].  The host's [Vue.set] and
    [Vue.delete] on a plain object are a property write and a property
    removal.  On any other object (an array, once a key was bound again)
    what they do is the host's: it is recorded, not interpreted.
    [OWritten o id data] is the object [o] after [Vue.set(o, id, data)]
    ([Some data]) or [Vue.delete(o, id)] ([None]), and [OSpliced o s opts] is
    such an object after the splices of the event [s] under the options
    [opts]. *)
Inductive object :=
  | OArray (items : list Value)
  | OPlain (props : gmap string Data)
  | OWritten (target : object) (id : string) (data : option Data)
  | OSpliced (target : object) (snapshot : Change Data)
      (defaultOptions : Options).

Inductive PState :=
  | Pending
  | Fulfilled (v : jsval)
  | Rejected (reason : jsval).

(** A caller-supplied callback returns a value, throws, or returns a promise
    (given by the state it settles in). *)
Inductive CallbackResult :=
  | Returns (v : jsval)
  | Raises (e : jsval)
  | ReturnsPromise (st : PState).

Definition Callback : Type := jsval -> CallbackResult.

(** A source with an own [ref] property: [{ ref, resolve, reject, objects }].
    An absent (or falsy) callback is [None]; [d_objects] is the truth value
    of [source.objects]. *)
Record Descriptor := mkDescriptor {
  d_ref : Ref;
  d_resolve : option Callback;
  d_reject : option Callback;
  d_objects : bool
}.

Inductive Source :=
  | Plain (r : Ref)
  | Wrapped (d : Descriptor).

(** What the remote store hands to a listener. *)
Inductive Notification :=
  | QuerySnapshot (changes : list (Change Data))
  | DocumentSnapshot (d : DocSnapshot Data)
  | Failure (error : jsval).

(** Calls of a promise's [resolve] and [reject] functions, in order. *)
Inductive SettleCall :=
  | CallResolve (p : nat) (v : jsval)
  | CallReject (p : nat) (e : jsval).

(** A call of [Vue.set(target, id, data)] ([Some data]) or of
    [Vue.delete(target, id)] ([None]) on a target that is no object of the
    heap: a normalized document. *)
Record HostWrite := mkHostWrite {
  hw_target : jsval;
  hw_id : string;
  hw_data : option Data
}.

(** Module-level and global objects the source reads: [defaultOptions], and
    the [warning] property of [console] ([None] where the console has no
    such method, as the standard one, whose method is [warn]). *)
Record Globals := mkGlobals {
  defaultOptions : Options;
  console_warning : option (string -> jsval)
}.

(** The state the source works on: the heap of containers, the promises,
    the owner ([vm[key]] and [vm.$firestore], [None] for null or undefined),
    and the remote store's listeners.  A listener's handle is its index in
    [listeners]; [unsubscribed] are the handles whose unsubscribe function
    was called.  [settle_log] records the calls of [resolve] and [reject],
    [host_writes] the calls of [Vue.set] and [Vue.delete] on a document. *)
Record World := mkWorld {
  globals : Globals;
  heap : list object;
  promises : list PState;
  vm_props : gmap string jsval;
  vm_firestore : option (gmap string Ref);
  listeners : list Listener;
  unsubscribed : list nat;
  settle_log : list SettleCall;
  host_writes : list HostWrite
}.

Definition set_heap (h : list object) (w : World) : World :=
  mkWorld (globals w) h (promises w) (vm_props w) (vm_firestore w)
    (listeners w) (unsubscribed w) (settle_log w) (host_writes w).
Definition set_promises (ps : list PState) (w : World) : World :=
  mkWorld (globals w) (heap w) ps (vm_props w) (vm_firestore w)
    (listeners w) (unsubscribed w) (settle_log w) (host_writes w).
Definition set_vm_props (m : gmap string jsval) (w : World) : World :=
  mkWorld (globals w) (heap w) (promises w) m (vm_firestore w)
    (listeners w) (unsubscribed w) (settle_log w) (host_writes w).
Definition set_vm_firestore (t : option (gmap string Ref)) (w : World) : World :=
  mkWorld (globals w) (heap w) (promises w) (vm_props w) t
    (listeners w) (unsubscribed w) (settle_log w) (host_writes w).
Definition set_listeners (ls : list Listener) (w : World) : World :=
  mkWorld (globals w) (heap w) (promises w) (vm_props w) (vm_firestore w)
    ls (unsubscribed w) (settle_log w) (host_writes w).
Definition set_unsubscribed (us : list nat) (w : World) : World :=
  mkWorld (globals w) (heap w) (promises w) (vm_props w) (vm_firestore w)
    (listeners w) us (settle_log w) (host_writes w).
Definition set_settle_log (lg : list SettleCall) (w : World) : World :=
  mkWorld (globals w) (heap w) (promises w) (vm_props w) (vm_firestore w)
    (listeners w) (unsubscribed w) lg (host_writes w).
Definition set_host_writes (hs : list HostWrite) (w : World) : World :=
  mkWorld (globals w) (heap w) (promises w) (vm_props w) (vm_firestore w)
    (listeners w) (unsubscribed w) (settle_log w) hs.

(** *** Computations: state passing with JavaScript exceptions

    A thrown exception keeps the mutations made before it. *)
Inductive Completion (A : Type) :=
  | Normal (a : A)
  | Throw (e : jsval).
Arguments Normal {A} _.
Arguments Throw {A} _.

Definition M (A : Type) : Type := World -> World * Completion A.

Definition ret {A : Type} (a : A) : M A := fun w => (w, Normal a).

Definition throw {A : Type} (e : jsval) : M A := fun w => (w, Throw e).

Definition and_then {A B : Type} (c : M A) (k : A -> M B) : M B :=
  fun w =>
    match c w with
    | (w', Normal a) => k a w'
    | (w', Throw e) => (w', Throw e)
    end.

Notation "x <- c ;;; k" := (and_then c (fun x => k))
  (at level 100, c at next level, right associativity).
Notation "c ;;; k" := (and_then c (fun _ => k))
  (at level 100, right associativity).

Definition update (f : World -> World) : M unit := fun w => (f w, Normal tt).

(** [list.forEach(f)] *)
Fixpoint forEach {A : Type} (l : list A) (f : A -> M unit) : M unit :=
  match l with
  | [] => ret tt
  | x :: rest => f x ;;; forEach rest f
  end.

Definition TypeError (what : string) : jsval := JError ("TypeError: " ++ what).

(** *** Promises *)

(** The effect on promise [p] of settling it in state [st]: the first
    settlement wins. *)
Definition settle (p : nat) (st : PState) (w : World) : World :=
  match promises w !! p with
  | Some Pending => set_promises (<[p := st]> (promises w)) w
  | _ => w
  end.

(** A call of the [resolve] function of promise [p]. *)
Definition call_resolve (p : nat) (v : jsval) : M unit :=
  update (fun w =>
    settle p (Fulfilled v) (set_settle_log (settle_log w ++ [CallResolve p v]) w)).

(** A call of the [reject] function of promise [p]. *)
Definition call_reject (p : nat) (e : jsval) : M unit :=
  update (fun w =>
    settle p (Rejected e) (set_settle_log (settle_log w ++ [CallReject p e]) w)).

(** [new Promise(executor)]: an exception of the executor rejects the new
    promise. *)
Definition new_promise (executor : nat -> M unit) : M nat :=
  fun w =>
    let p := length (promises w) in
    match executor p (set_promises (promises w ++ [Pending]) w) with
    | (w', Normal _) => (w', Normal p)
    | (w', Throw e) => (settle p (Rejected e) w', Normal p)
    end.

(** The state a promise derived by [then] or [catch] takes from its
    handler's completion. *)
Definition adopt (r : CallbackResult) : PState :=
  match r with
  | Returns v => Fulfilled v
  | Raises e => Rejected e
  | ReturnsPromise st => st
  end.

(** [promise.then(onFulfilled)] *)
Definition promise_then (st : PState) (onFulfilled : Callback) : PState :=
  match st with
  | Pending => Pending
  | Fulfilled v => adopt (onFulfilled v)
  | Rejected e => Rejected e
  end.

(** [promise.catch(onRejected)] *)
Definition promise_catch (st : PState) (onRejected : Callback) : PState :=
  match st with
  | Pending => Pending
  | Fulfilled v => Fulfilled v
  | Rejected e => adopt (onRejected e)
  end.

(** *** Primitive accesses of the source *)

(** [vm.$firestore[key] = source]; a TypeError when [vm.$firestore] is null
    or undefined. *)
Definition firestore_set (key : string) (source : Ref) : M unit :=
  fun w =>
    match vm_firestore w with
    | Some t => (set_vm_firestore (Some (<[key := source]> t)) w, Normal tt)
    | None => (w, Throw (TypeError "cannot set a property of null"))
    end.

(** [delete vm.$firestore[key]]; a TypeError when [vm.$firestore] is null or
    undefined. *)
Definition firestore_delete (key : string) : M unit :=
  fun w =>
    match vm_firestore w with
    | Some t => (set_vm_firestore (Some (delete key t)) w, Normal tt)
    | None => (w, Throw (TypeError "cannot convert null to object"))
    end.

(** [[]] and [{}]: a fresh object, at the end of the heap. *)
Definition alloc (o : object) : M nat :=
  fun w => (set_heap (heap w ++ [o]) w, Normal (length (heap w))).

(** [vm[key] = val] *)
Definition vm_set (key : string) (val : jsval) : M unit :=
  update (fun w => set_vm_props (<[key := val]> (vm_props w)) w).

(** [Vue.util.defineReactive(vm, key, val)], the host's: it declares [key]
    on [vm] with the initial value [val]. *)
Definition Vue_util_defineReactive (key : string) (val : jsval) : M unit :=
  update (fun w => set_vm_props (<[key := val]> (vm_props w)) w).

(** [defineReactive(vm, key, val)], lines 14-20 *)
Definition defineReactive (key : string) (val : jsval) : M unit :=
  fun w =>
    match vm_props w !! key with
    | Some _ => vm_set key val w
    | None => Vue_util_defineReactive key val w
    end.

(** [vm[key]] *)
Definition vm_get (key : string) : M jsval :=
  fun w => (w, Normal (default JUndefined (vm_props w !! key))).

(** [source.onSnapshot(onNext, onError)]: the remote store registers the
    listener and returns the handle of its unsubscribe function. *)
Definition onSnapshot (l : Listener) : M nat :=
  fun w => (set_listeners (listeners w ++ [l]) w, Normal (length (listeners w))).

(** The unsubscribe function [onSnapshot] returned for handle [h]. *)
Definition unsubscribe (h : nat) : M unit :=
  update (fun w => set_unsubscribed (h :: unsubscribed w) w).

(** [console.warning(message)] *)
Definition console_warning_call (message : string) : M jsval :=
  fun w =>
    match console_warning (globals w) with
    | Some f => (w, Normal (f message))
    | None => (w, Throw (TypeError "console.warning is not a function"))
    end.

(** *** The binders, lines 31-141

    Each stores the source in the side table, allocates its container,
    installs it at [vm[key]] and subscribes; the value [onSnapshot] returns
    is dropped. *)
Definition collections (key : string) (source : Ref) (p : nat) : M unit :=
  firestore_set key source ;;;
  container <- alloc (OArray []) ;;;
  defineReactive key (JRef container) ;;;
  _ <- onSnapshot (mkListener source Collections key container p) ;;;
  ret tt.

Definition collectionOfObjects (key : string) (source : Ref) (p : nat) : M unit :=
  firestore_set key source ;;;
  container <- alloc (OPlain ∅) ;;;
  defineReactive key (JRef container) ;;;
  _ <- onSnapshot (mkListener source CollectionOfObjects key container p) ;;;
  ret tt.

Definition documents (key : string) (source : Ref) (p : nat) : M unit :=
  firestore_set key source ;;;
  container <- alloc (OArray []) ;;;
  defineReactive key (JRef container) ;;;
  _ <- onSnapshot (mkListener source Documents key container p) ;;;
  ret tt.

(** *** The listeners *)

(** Whether [snapshot.type] is one of the three cases of the switches. *)
Definition known_type (snapshot : Change Data) : bool :=
  String.eqb (type snapshot) "added" || String.eqb (type snapshot) "removed"
  || String.eqb (type snapshot) "modified".

(** One turn of the [forEach] of [collections], lines 38-57, on the captured
    container: the splices of [sequence_change] on an array, recorded on an
    array the host has written to; the default case leaves either alone. *)
Definition container_change (defaultOptions : Options) (o : object)
    (snapshot : Change Data) : object :=
  match o with
  | OArray items => OArray (sequence_change normalize defaultOptions items snapshot)
  | _ => if known_type snapshot then OSpliced o snapshot defaultOptions else o
  end.

(** The first callback of [collections], lines 36-63: every change spliced
    into the captured array, then [resolve(container)]. *)
Definition collections_next (l : Listener) (changes : list (Change Data)) : M unit :=
  fun w =>
    call_resolve (l_promise l) (JRef (l_container l))
      (set_heap
         (alter
            (fun o =>
               fold_left (container_change (defaultOptions (globals w))) changes o)
            (l_container l) (heap w)) w).

(** [Vue.set(target, id, data)] ([Some data]) and [Vue.delete(target, id)]
    ([None]) on an object of the heap. *)
Definition object_written (id : string) (data : option Data) (o : object)
    : object :=
  match o with
  | OPlain props =>
      OPlain (match data with
              | Some d => <[id := d]> props
              | None => delete id props
              end)
  | _ => OWritten o id data
  end.

(** The same on the value found at [vm[key]]: a reference to an object of
    the heap, a document (the call is logged), or undefined, of which the
    host cannot read a property. *)
Definition Vue_write (target : jsval) (id : string) (data : option Data)
    : M unit :=
  match target with
  | JRef t =>
      update (fun w => set_heap (alter (object_written id data) t (heap w)) w)
  | JUndefined =>
      throw (TypeError "cannot read a property of undefined")
  | _ =>
      update (fun w =>
        set_host_writes (host_writes w ++ [mkHostWrite target id data]) w)
  end.

(** One turn of the [forEach] of [collectionOfObjects], lines 86-100:
    [vm[key]] is read in the three cases that call the host, not in the
    default case. *)
Definition keyed_event (key : string) (snapshot : Change Data) : M unit :=
  if String.eqb (type snapshot) "added" then
    target <- vm_get key ;;;
    Vue_write target (doc_id (doc snapshot)) (Some (doc_data (doc snapshot)))
  else if String.eqb (type snapshot) "removed" then
    target <- vm_get key ;;;
    Vue_write target (doc_id (doc snapshot)) None
  else if String.eqb (type snapshot) "modified" then
    target <- vm_get key ;;;
    Vue_write target (doc_id (doc snapshot)) (Some (doc_data (doc snapshot)))
  else ret tt.

(** The first callback of [collectionOfObjects], lines 84-106. *)
Definition collectionOfObjects_next (l : Listener) (changes : list (Change Data))
    : M unit :=
  forEach changes (keyed_event (l_key l)) ;;;
  call_resolve (l_promise l) (JRef (l_container l)).

(** The first callback of [documents], lines 127-136: its two branches and
    the [resolve(vm[key])] that follows both. *)
Definition documents_exists (l : Listener) (d : DocSnapshot Data) : M unit :=
  fun w =>
    vm_set (l_key l)
      (JNormalized (normalize (OfDocument d) (defaultOptions (globals w)))) w.

Definition documents_absent (l : Listener) : M unit :=
  firestore_delete (l_key l) ;;;
  warned <- console_warning_call (missing_message (l_key l)) ;;;
  call_reject (l_promise l) warned.

Definition documents_resolve (l : Listener) : M unit :=
  current <- vm_get (l_key l) ;;;
  call_resolve (l_promise l) current.

Definition documents_next (l : Listener) (d : DocSnapshot Data) : M unit :=
  (if doc_exists d then documents_exists l d else documents_absent l) ;;;
  documents_resolve l.

(** The remote store calls a registered listener that was not unsubscribed:
    its second callback ([error => reject(error)]) on a failure, its first
    otherwise.  A document snapshot has no [docChanges] method; a query
    snapshot has no [exists] property. *)
Definition notify (l : Listener) (n : Notification) : M unit :=
  match n with
  | Failure error => call_reject (l_promise l) error
  | QuerySnapshot changes =>
      match l_strategy l with
      | Collections => collections_next l changes
      | CollectionOfObjects => collectionOfObjects_next l changes
      | Documents => documents_absent l ;;; documents_resolve l
      end
  | DocumentSnapshot d =>
      match l_strategy l with
      | Documents => documents_next l d
      | _ => throw (TypeError "doc.docChanges is not a function")
      end
  end.

(** The remote store delivers notification [n] to the listener with handle
    [h]; nothing happens for a handle that is unknown or unsubscribed. *)
Definition deliver (h : nat) (n : Notification) : M unit :=
  fun w =>
    match listeners w !! h with
    | Some l => if bool_decide (h ∈ unsubscribed w) then (w, Normal tt)
                else notify l n w
    | None => (w, Normal tt)
    end.

(** *** [bind], lines 151-180 *)

(** What [bind] returns: the promise [binding] itself, or
    [binding.then(res => resolve(res)).catch(err => reject(err))]. *)
Inductive Bound :=
  | Binding (p : nat)
  | ThenCatch (p : nat) (resolve reject : Callback).

(** [() => {}] *)
Definition noop : Callback := fun _ => Returns JUndefined.

(** The truth value of a variable that holds a function or null. *)
Definition truthy {A : Type} (f : option A) : bool :=
  match f with
  | Some _ => true
  | None => false
  end.

(** A call of the value of such a variable. *)
Definition call (f : option Callback) : Callback :=
  fun x =>
    match f with
    | Some g => g x
    | None => Raises (TypeError "null is not a function")
    end.

(** In the promise executor [resolve] and [reject] are the functions of the
    new promise, here its index [p]; outside they are the callbacks of the
    descriptor, or null. *)
Definition bind (key : string) (source : Source) (params : Params) : M Bound :=
  let '(resolve, reject, objects, source) :=
    match source with
    | Wrapped d =>
        (Some (default noop (d_resolve d)), Some (default noop (d_reject d)),
         d_objects d, d_ref d)
    | Plain r => (None, None, objects params, r)
    end in
  binding <- new_promise (fun p =>
    if objects then collectionOfObjects key source p
    else if ref_where source then collections key source p
    else documents key source p) ;;;
  if truthy resolve || truthy reject
  then ret (ThenCatch binding (call resolve) (call reject))
  else ret (Binding binding).

(** The state of the promise [bind] returned, in world [w], once the
    reactions of the chain have run. *)
Definition bound_state (w : World) (b : Bound) : PState :=
  match b with
  | Binding p => default Pending (promises w !! p)
  | ThenCatch p resolve reject =>
      promise_catch
        (promise_then (default Pending (promises w !! p)) (fun res => resolve res))
        (fun err => reject err)
  end.

(** *** The owner's methods, lines 198-250 *)

(** [Vue.prototype.$unbind] *)
Definition unbind (key : string) : M unit :=
  firestore_delete key.

(** [beforeDestroy]: every entry of the side table is an object, hence
    truthy, and is unbound; then the table is set to null. *)
Definition beforeDestroy : M unit :=
  fun w =>
    match vm_firestore w with
    | None => (w, Normal tt)
    | Some t =>
        (forEach (map_to_list t).*1 unbind ;;;
         update (set_vm_firestore None)) w
    end.

(** [if (!this.$firestore) this.$firestore = Object.create(null)] *)
Definition ensure_firestore : M unit :=
  update (fun w =>
    match vm_firestore w with
    | Some _ => w
    | None => set_vm_firestore (Some ∅) w
    end).

(** [Vue.prototype.$binding] *)
Definition binding (key : string) (source : Source) : M Bound :=
  ensure_firestore ;;;
  bind key source (mkParams false).

(** [Vue.prototype.$bindCollectionAsObject] *)
Definition bindCollectionAsObject (key : string) (source : Source) : M Bound :=
  ensure_firestore ;;;
  bind key source (mkParams true).

(** *** The life of one binding, as the remote store drives it *)

(** The notifications [ns] delivered to handle [h], one after the other. *)
Definition deliver_all (h : nat) (ns : list Notification) : M unit :=
  forEach ns (deliver h).

(** What a query sends its listener: batches of changes and failures. *)
Definition from_query (n : Notification) : bool :=
  match n with
  | DocumentSnapshot _ => false
  | _ => true
  end.

(** The container of a collection-mode binding after one batch: the array
    of [collections], the plain object of [collectionOfObjects]. *)
Definition batch_on (defaultOptions : Options) (o : object)
    (changes : list (Change Data)) : object :=
  match o with
  | OArray items => OArray (sequence_batch normalize defaultOptions items changes)
  | OPlain props => OPlain (keyed_batch props changes)
  | _ => o
  end.

(** The container after the notifications [ns]. *)
Fixpoint replay (defaultOptions : Options) (o : object)
    (ns : list Notification) : object :=
  match ns with
  | [] => o
  | QuerySnapshot changes :: rest =>
      replay defaultOptions (batch_on defaultOptions o changes) rest
  | _ :: rest => replay defaultOptions o rest
  end.

(** A collection-mode listener and its container [o] in world [w]: the
    array captured by a [collections] listener, or the plain object captured
    by a [collectionOfObjects] listener and still found at [vm[key]]. *)
Definition attached (w : World) (l : Listener) (o : object) : Prop :=
  heap w !! l_container l = Some o /\
  match l_strategy l, o with
  | Collections, OArray _ => True
  | CollectionOfObjects, OPlain _ =>
      vm_props w !! l_key l = Some (JRef (l_container l))
  | _, _ => False
  end.

(** The call a collection listener [l] makes on a notification from a query:
    [resolve(container)] after a batch, [reject(error)] on a failure. *)
Definition call_of (l : Listener) (n : Notification) : SettleCall :=
  match n with
  | Failure error => CallReject (l_promise l) error
  | _ => CallResolve (l_promise l) (JRef (l_container l))
  end.

(** A promise state after one more call: only a pending promise changes. *)
Definition after_call (st : PState) (call : SettleCall) : PState :=
  match st with
  | Pending =>
      match call with
      | CallResolve _ v => Fulfilled v
      | CallReject _ e => Rejected e
      end
  | _ => st
  end.

(** *** The classification as the specification words it

    "If [options.objects] (or an object-shaped source descriptor requesting
    it) is set: keyed mode.  Else if the source exposes a filter/where
    capability: sequence mode.  Else: document mode." *)
Definition source_ref (source : Source) : Ref :=
  match source with
  | Plain r => r
  | Wrapped d => d_ref d
  end.


(** The flag [bind] tests (its variable [objects]): of a descriptor its own,
    else the one of [params]. *)
Definition objects_flag (source : Source) (params : Params) : bool :=
  match source with
  | Wrapped d => d_objects d
  | Plain _ => objects params
  end.

(** The container a binder starts with. *)
Definition initial_container (st : Strategy) : object :=
  match st with
  | CollectionOfObjects => OPlain ∅
  | _ => OArray []
  end.

(** The world a binder of the given strategy leaves when the side table is
    [t]: the entry, the container, the property and the listener. *)
Definition subscribed (w : World) (key : string) (source : Ref)
    (p : nat) (t : gmap string Ref) (strategy : Strategy) : World :=
  set_listeners
    (listeners w ++ [mkListener source strategy key (length (heap w)) p])
    (set_vm_props (<[key := JRef (length (heap w))]> (vm_props w))
       (set_heap (heap w ++ [initial_container strategy])
          (set_vm_firestore (Some (<[key := source]> t)) w))).

(** One turn of the [forEach] of [collectionOfObjects] on the object the
    reference at [vm[key]] points to. *)
Definition keyed_object_change (o : object) (snapshot : Change Data) : object :=
  if String.eqb (type snapshot) "added" then
    object_written (doc_id (doc snapshot)) (Some (doc_data (doc snapshot))) o
  else if String.eqb (type snapshot) "removed" then
    object_written (doc_id (doc snapshot)) None o
  else if String.eqb (type snapshot) "modified" then
    object_written (doc_id (doc snapshot)) (Some (doc_data (doc snapshot))) o
  else o.

(** A listener of a collection-mode binder in a world where its binder has
    run: for [collectionOfObjects], [vm[key]] is defined. *)
Definition collection_listener (w : World) (l : Listener) : Prop :=
  match l_strategy l with
  | Collections => True
  | CollectionOfObjects =>
      exists target : jsval,
        vm_props w !! l_key l = Some target /\ target <> JUndefined
  | Documents => False
  end.

(** What a notification leaves alone in the owner and in the store. *)
Definition same_owner (w w' : World) : Prop :=
  globals w' = globals w /\ vm_props w' = vm_props w /\
  vm_firestore w' = vm_firestore w /\ listeners w' = listeners w /\
  unsubscribed w' = unsubscribed w.

(** *** What the specification says of [unbind] and of the returned promise *)

(** "Unbind releases the subscription handle": after [unbind key], every
    listener subscribed for [key] is unsubscribed. *)
Definition unbind_releases (w : World) (key : string) : Prop :=
  forall (h : nat) (l : Listener),
    listeners w !! h = Some l -> l_key l = key ->
    h ∈ unsubscribed (unbind key w).1.

(** "No rejection ever propagates to the caller": the promise [bind]
    returned is not rejected. *)
Definition never_rejected (w : World) (b : Bound) : Prop :=
  forall e : jsval, bound_state w b <> Rejected e.

(** A callback that neither throws nor returns a promise that rejects. *)
Definition completes_normally (f : Callback) : Prop :=
  forall (x e : jsval), adopt (f x) <> Rejected e.


(** *** [install], lines 222-225, and [created], lines 185-193 *)

Definition set_globals (g : Globals) (w : World) : World :=
  mkWorld g (heap w) (promises w) (vm_props w) (vm_firestore w)
    (listeners w) (unsubscribed w) (settle_log w) (host_writes w).

(** The two assignments of [install] to [defaultOptions]: [options.key] is
    tested for truth (the empty string is falsy), [options.enumerable] for
    being defined. *)
Definition install_options (options : option InstallOptions)
    (defaultOptions : Options) : Options :=
  let keyed :=
    match options with
    | Some o =>
        match opt_key o with
        | Some k => if String.eqb k "" then defaultOptions
                    else mkOptions k (enumerable defaultOptions)
        | None => defaultOptions
        end
    | None => defaultOptions
    end in
  match options with
  | Some o =>
      match opt_enumerable o with
      | Some e => mkOptions (keyName keyed) e
      | None => keyed
      end
  | None => keyed
  end.

(** [install(_Vue, options)], as far as the state of this development goes:
    the registration of the mixin and of the three methods is the host's. *)
Definition install (options : option InstallOptions) : M unit :=
  update (fun w =>
    set_globals
      (mkGlobals (install_options options (defaultOptions (globals w)))
         (console_warning (globals w))) w).

(** [this.$options.firestore]: absent, an object of bindings (its keys in
    the order [for ... in] visits them), or a function that is called with
    the owner and returns such an object or a falsy value. *)
Inductive Declared :=
  | NotDeclared
  | DeclaredObject (bindings : list (string * Source))
  | DeclaredFunction (f : World -> option (list (string * Source))).

(** [ensureRefs] lives in [utils/utils.js], which is not among the sources
    at hand: [created] is parametric in it. *)
Variable ensureRefs : M unit.

(** [created]: the promise each [bind] returns is dropped. *)
Definition created (declared : Declared) : M unit :=
  fun w =>
    let bindings :=
      match declared with
      | NotDeclared => None
      | DeclaredObject bs => Some bs
      | DeclaredFunction f => f w
      end in
    match bindings with
    | None => (w, Normal tt)
    | Some bs =>
        (ensureRefs ;;;
         forEach bs (fun b => _ <- bind b.1 b.2 (mkParams false) ;;; ret tt)) w
    end.

(** The listener [bind] subscribes for [key] and [source] in a world with
    [n_heap] objects and [n_promises] promises. *)
Definition listener_of (key : string) (source : Source) (params : Params)
    (n_heap n_promises : nat) : Listener :=
  mkListener (source_ref source)
    (if objects_flag source params then CollectionOfObjects
     else if ref_where (source_ref source) then Collections
     else Documents)
    key n_heap n_promises.

(** The listeners [created] subscribes for the bindings [bs], in order. *)
Fixpoint listeners_of (bs : list (string * Source)) (n_heap n_promises : nat)
    : list Listener :=
  match bs with
  | [] => []
  | b :: rest =>
      listener_of b.1 b.2 (mkParams false) n_heap n_promises
      :: listeners_of rest (S n_heap) (S n_promises)
  end.


(** "Two runs from the same initial state yield the same final container
    (no hidden state influences the result)", the state being the
    container: the array [c] and the batch [changes] decide the array the
    listener leaves, in whatever world it runs. *)
Definition container_alone_decides (c : list Value)
    (changes : list (Change Data)) : Prop :=
  forall (w1 w2 : World) (l : Listener),
    heap w1 !! l_container l = Some (OArray c) ->
    heap w2 !! l_container l = Some (OArray c) ->
    heap (collections_next l changes w1).1 !! l_container l
    = heap (collections_next l changes w2).1 !! l_container l.

End Lifecycle.
Arguments Normal {Value A} _.
Arguments Throw {Value A} _.

(** ** A concrete store, for running the definitions *)

(** Field data of a document: property names with their (printed) values. *)
Definition FieldData : Type := list (string * string).

(** A normalized document: the field data and the identity property. *)
Record Normalized := mkNormalized {
  n_fields : FieldData;
  n_key : string;
  n_identity : string;
  n_enumerable : bool
}.

(** Modelled from the spec: [normalize] of [utils/utils.js], which is not
    among the sources.  It "produces a value equal to the document's field
    data with one additional property named keyName holding the document's
    identity, attached with the given enumerability". *)
Definition spec_normalize (s : Snapshot FieldData) (o : Options) : Normalized :=
  let d := match s with OfChange c => doc c | OfDocument d => d end in
  mkNormalized (doc_data d) (keyName o) (doc_id d) (enumerable o).

(** The options the plugin starts with: [{ keyName: 'id', enumerable: true }]. *)
Definition initialOptions : Options := mkOptions "id" true.

Definition sample_doc (id name : string) : DocSnapshot FieldData :=
  mkDoc id [("name", name)] true.

Definition added (at_ : Z) (d : DocSnapshot FieldData) : Change FieldData :=
  mkChange "added" (-1) at_ d.

Definition removed (at_ : Z) (d : DocSnapshot FieldData) : Change FieldData :=
  mkChange "removed" at_ (-1) d.

Definition modified (from to : Z) (d : DocSnapshot FieldData) : Change FieldData :=
  mkChange "modified" from to d.

(** An owner fresh from construction, in a browser: the options the plugin
    starts with, a console without a [warning] method, no side table yet. *)
Definition fresh_owner : @World FieldData Normalized :=
  mkWorld (mkGlobals initialOptions None) [] [] ∅ None [] [] [] [].

(** A query over a collection, and a reference to one document. *)
Definition items_query : Ref := mkRef "items" true.

Definition profile_document : Ref := mkRef "users/42" false.

(** The owner with its (empty) side table, as [$binding] first makes it. *)
Definition owner_with_table : @World FieldData Normalized :=
  (ensure_firestore fresh_owner).1.

(** The owner after [this.$binding('items', query)]. *)
Definition items_bound : @World FieldData Normalized :=
  (binding "items" (Plain items_query) fresh_owner).1.

Definition items_listener : Listener :=
  mkListener items_query Collections "items" 0 0.

(** The owner after [this.$binding('profile', document)]. *)
Definition profile_bound : @World FieldData Normalized :=
  (binding "profile" (Plain profile_document) fresh_owner).1.

(** The snapshot of a document that does not exist. *)
Definition missing_profile : DocSnapshot FieldData := mkDoc "42" [] false.

(** [{ ref: query }], with neither callbacks nor the [objects] flag. *)
Definition wrapped_query : @Source Normalized :=
  Wrapped (mkDescriptor items_query None None false).

(** [{ ref: query, reject: err => { throw err } }] *)
Definition rethrow : @Callback Normalized := fun err => Raises err.

Definition rethrowing_query : @Source Normalized :=
  Wrapped (mkDescriptor items_query None (Some rethrow) false).

(** The owner after [this.$binding('items', { ref: query, reject })] and a
    failure reported by the store. *)
Definition items_failed : @World FieldData Normalized :=
  (deliver spec_normalize 0 (Failure (JError "permission-denied"))
     (binding "items" rethrowing_query fresh_owner).1).1.

(** A change of a type the strategies do not know. *)
Definition touched (d : DocSnapshot FieldData) : Change FieldData :=
  mkChange "metadata" 0 0 d.

(** The owner after [this.$bindCollectionAsObject('items', query)], twice. *)
Definition items_rebound_as_objects : @World FieldData Normalized :=
  (bindCollectionAsObject "items" (Plain items_query)
     (bindCollectionAsObject "items" (Plain items_query) fresh_owner).1).1.

(** The listener of the first of the two bindings. *)
Definition first_objects_listener : Listener :=
  mkListener items_query CollectionOfObjects "items" 0 0.

(** An owner in an environment whose console has a function [warning] that
    returns undefined, and that owner after
    [this.$binding('profile', document)]. *)
Definition owner_with_console_warning : @World FieldData Normalized :=
  mkWorld (mkGlobals initialOptions (Some (fun _ => JUndefined)))
    [] [] ∅ None [] [] [] [].

Definition profile_bound_with_warning : @World FieldData Normalized :=
  (binding "profile" (Plain profile_document) owner_with_console_warning).1.

Definition profile_listener : Listener :=
  mkListener profile_document Documents "profile" 0 0.

(** The owner after [this.$bindCollectionAsObject('items', query)]. *)
Definition items_bound_as_objects : @World FieldData Normalized :=
  (bindCollectionAsObject "items" (Plain items_query) fresh_owner).1.

(** That owner after [this.$binding('items', query)]: [vm.items] is now the
    array of the second binding. *)
Definition items_rebound_as_array : @World FieldData Normalized :=
  (binding "items" (Plain items_query) items_bound_as_objects).1.

(** The owner of [items_bound] after [install(Vue, { key: 'docId' })]. *)
Definition items_bound_with_docId : @World FieldData Normalized :=
  (install (Some (mkInstallOptions (Some "docId") None)) items_bound).1.

(** [firestore: { items: query, profile: document }] *)
Definition declared_bindings : list (string * @Source Normalized) :=
  [("items", Plain items_query); ("profile", Plain profile_document)].

(** * Properties *)

(** ** [splice] at an index within the array *)

Section SpliceFacts.
Context {A : Type}.
Implicit Types (a : list A) (n : Z) (v : A).

Lemma actualStart_within (len : nat) n :
  (0 <= n <= Z.of_nat len)%Z -> actualStart len n = Z.to_nat n.
Proof.
  intros [H0 H1]. unfold actualStart.
  destruct (Z.ltb_spec n 0) as [Hneg|_]; [lia|].
  f_equal. lia.
Qed.

Lemma splice_insert a n v :
  (0 <= n <= Z.of_nat (length a))%Z ->
  splice a n 0 [v] = take (Z.to_nat n) a ++ v :: drop (Z.to_nat n) a.
Proof.
  intros Hn. unfold splice. rewrite actualStart_within by exact Hn.
  cbn [Nat.min]. by rewrite Nat.add_0_r.
Qed.

Lemma splice_delete a n :
  (0 <= n < Z.of_nat (length a))%Z ->
  splice a n 1 [] = delete (Z.to_nat n) a.
Proof.
  intros Hn. unfold splice. rewrite actualStart_within by lia.
  replace (Nat.min 1 (length a - Z.to_nat n)) with 1%nat by lia.
  rewrite delete_take_drop. cbn [app]. do 2 f_equal. lia.
Qed.

Lemma splice_replace a n v :
  (0 <= n < Z.of_nat (length a))%Z ->
  splice a n 1 [v] = <[Z.to_nat n := v]> a.
Proof.
  intros Hn. unfold splice. rewrite actualStart_within by lia.
  replace (Nat.min 1 (length a - Z.to_nat n)) with 1%nat by lia.
  rewrite insert_take_drop by lia. cbn [app]. do 3 f_equal. lia.
Qed.

(** Past the end and before the beginning [splice] clamps: an insertion
    lands at the end, a negative index counts from the end. *)
Lemma splice_insert_past_end a n v :
  (Z.of_nat (length a) <= n)%Z -> splice a n 0 [v] = a ++ [v].
Proof.
  intros Hn. unfold splice, actualStart.
  destruct (Z.ltb_spec n 0) as [Hneg|_]; [lia|].
  replace (Z.to_nat (Z.min n (Z.of_nat (length a)))) with (length a) by lia.
  rewrite take_ge by lia. rewrite drop_ge by lia. done.
Qed.

(** [-1], which the store reports for an index that does not apply, is the
    last position. *)
Lemma splice_delete_minus_one a v : splice (a ++ [v]) (-1) 1 [] = a.
Proof.
  unfold splice, actualStart. rewrite length_app. cbn [length Z.ltb Z.compare].
  replace (Z.to_nat (Z.max (Z.of_nat (length a + 1) + -1) 0)) with (length a)
    by lia.
  rewrite take_app_length.
  replace (1 `min` (length a + 1 - length a))%nat with 1%nat by lia.
  rewrite drop_ge by (rewrite length_app; cbn [length]; lia).
  by rewrite app_nil_r.
Qed.

Lemma splice_delete_past_end a n :
  (Z.of_nat (length a) <= n)%Z -> splice a n 1 [] = a.
Proof.
  intros Hn. unfold splice, actualStart.
  destruct (Z.ltb_spec n 0) as [Hneg|_]; [lia|].
  replace (Z.to_nat (Z.min n (Z.of_nat (length a)))) with (length a) by lia.
  rewrite take_ge by lia. rewrite drop_ge by lia. by rewrite app_nil_r.
Qed.

End SpliceFacts.

(** ** The sequence strategy *)

Section SequenceFacts.
Context {Data Value : Type}.
Variable normalize : Snapshot Data -> Options -> Value.
Variable opts : Options.
Implicit Types (c : list Value) (s : Change Data).

Lemma sequence_change_added c s :
  type s = "added" ->
  sequence_change normalize opts c s
  = splice c (newIndex s) 0 [normalize (OfChange s) opts].
Proof. intros Ht. unfold sequence_change. by rewrite Ht. Qed.

Lemma sequence_change_removed c s :
  type s = "removed" ->
  sequence_change normalize opts c s = splice c (oldIndex s) 1 [].
Proof. intros Ht. unfold sequence_change. by rewrite Ht. Qed.

Lemma sequence_change_replaced c s :
  type s = "modified" -> oldIndex s = newIndex s ->
  sequence_change normalize opts c s
  = splice c (newIndex s) 1 [normalize (OfChange s) opts].
Proof.
  intros Ht Hi. unfold sequence_change. rewrite Ht, Hi, Z.eqb_refl. done.
Qed.

Lemma sequence_change_moved c s :
  type s = "modified" -> oldIndex s <> newIndex s ->
  sequence_change normalize opts c s
  = splice (splice c (oldIndex s) 1 []) (newIndex s) 0
      [normalize (OfChange s) opts].
Proof.
  intros Ht Hi. unfold sequence_change. rewrite Ht.
  apply Z.eqb_neq in Hi. by rewrite Hi.
Qed.

Lemma sequence_change_ignored c s :
  type s <> "added" -> type s <> "removed" -> type s <> "modified" ->
  sequence_change normalize opts c s = c.
Proof.
  intros Ha Hr Hm. unfold sequence_change.
  apply String.eqb_neq in Ha, Hr, Hm. by rewrite Ha, Hr, Hm.
Qed.

(** The function and the transition relation are the same thing. *)
Lemma sequence_step_change c s :
  sequence_step normalize opts c s (sequence_change normalize opts c s).
Proof.
  destruct (decide (type s = "added")) as [Ha|Ha].
  { rewrite sequence_change_added by done. by constructor. }
  destruct (decide (type s = "removed")) as [Hr|Hr].
  { rewrite sequence_change_removed by done. by constructor. }
  destruct (decide (type s = "modified")) as [Hm|Hm].
  - destruct (decide (oldIndex s = newIndex s)) as [Hi|Hi].
    + rewrite sequence_change_replaced by done. by constructor.
    + rewrite sequence_change_moved by done. by constructor.
  - rewrite sequence_change_ignored by done. by constructor.
Qed.

Lemma sequence_step_functional c s c' :
  sequence_step normalize opts c s c' ->
  c' = sequence_change normalize opts c s.
Proof.
  intros Hstep. inversion Hstep; subst.
  - by rewrite sequence_change_added.
  - by rewrite sequence_change_removed.
  - by rewrite sequence_change_moved.
  - by rewrite sequence_change_replaced.
  - by rewrite sequence_change_ignored.
Qed.

Lemma sequence_run_batch c changes :
  sequence_run normalize opts c changes (sequence_batch normalize opts c changes).
Proof.
  revert c. induction changes as [|s rest IH]; intros c; cbn.
  - constructor.
  - econstructor; [apply sequence_step_change | apply IH].
Qed.

Lemma sequence_run_functional c changes c' :
  sequence_run normalize opts c changes c' ->
  c' = sequence_batch normalize opts c changes.
Proof.
  induction 1 as [c|c s c1 rest c2 Hstep _ IH]; cbn; [done|].
  apply sequence_step_functional in Hstep. by subst.
Qed.

(** An added value lands at [newIndex]; what was at or after it moves up. *)
Lemma added_shape c s :
  type s = "added" -> (0 <= newIndex s <= Z.of_nat (length c))%Z ->
  let c' := sequence_change normalize opts c s in
  length c' = S (length c) /\
  c' !! Z.to_nat (newIndex s) = Some (normalize (OfChange s) opts) /\
  (forall i : nat, (Z.of_nat i < newIndex s)%Z -> c' !! i = c !! i) /\
  (forall i : nat, (newIndex s <= Z.of_nat i)%Z -> c' !! S i = c !! i).
Proof.
  intros Ht Hn. cbn zeta. rewrite sequence_change_added by done.
  rewrite splice_insert by done.
  set (k := Z.to_nat (newIndex s)).
  assert (Hk : (k <= length c)%nat) by lia.
  assert (Hlen : length (take k c) = k) by (rewrite length_take; lia).
  repeat split.
  - rewrite length_app, Hlen. cbn. rewrite length_drop. lia.
  - rewrite lookup_app_r by lia. rewrite Hlen, Nat.sub_diag. done.
  - intros i Hi. rewrite lookup_app_l by lia. apply lookup_take_lt. lia.
  - intros i Hi. rewrite lookup_app_r by lia. rewrite Hlen.
    replace (S i - k)%nat with (S (i - k)) by lia.
    change ((?x :: ?l) !! S ?j) with (l !! j).
    rewrite lookup_drop. f_equal. lia.
Qed.

(** A removed element leaves; what was after it moves down. *)
Lemma removed_shape c s :
  type s = "removed" -> (0 <= oldIndex s < Z.of_nat (length c))%Z ->
  let c' := sequence_change normalize opts c s in
  S (length c') = length c /\
  (forall i : nat, (Z.of_nat i < oldIndex s)%Z -> c' !! i = c !! i) /\
  (forall i : nat, (oldIndex s <= Z.of_nat i)%Z -> c' !! i = c !! S i).
Proof.
  intros Ht Hn. cbn zeta. rewrite sequence_change_removed by done.
  rewrite splice_delete by done.
  repeat split.
  - assert (is_Some (c !! Z.to_nat (oldIndex s))) as Hsome
      by (apply lookup_lt_is_Some; lia).
    pose proof (length_delete c (Z.to_nat (oldIndex s)) Hsome). lia.
  - intros i Hi. apply list_lookup_delete_lt. lia.
  - intros i Hi. apply list_lookup_delete_ge. lia.
Qed.

(** A modification in place rewrites one position. *)
Lemma replaced_shape c s :
  type s = "modified" -> oldIndex s = newIndex s ->
  (0 <= newIndex s < Z.of_nat (length c))%Z ->
  let c' := sequence_change normalize opts c s in
  length c' = length c /\
  c' !! Z.to_nat (newIndex s) = Some (normalize (OfChange s) opts) /\
  (forall i : nat, i <> Z.to_nat (newIndex s) -> c' !! i = c !! i).
Proof.
  intros Ht Hi Hn. cbn zeta. rewrite sequence_change_replaced by done.
  rewrite splice_replace by done.
  repeat split.
  - apply length_insert.
  - apply list_lookup_insert_eq. lia.
  - intros i Hne. by apply list_lookup_insert_ne.
Qed.

(** C1.  An Added event of the sequence strategy puts the normalized
    document at position [newIndex] and moves every element at a position
    >= [newIndex] one place to the right; a Removed event takes out the
    element at position [oldIndex] and moves every element at a position
    > [oldIndex] one place to the left.  The indices are positions of the
    container the event is applied to, as the store guarantees.  Added
    events for three documents at 0, 1, 2 turn the empty sequence into the
    three normalized documents in that order, and Removed at 1 turns a
    three-element sequence into its first and third element. *)
Theorem sequence_added_removed c s :
  (type s = "added" -> (0 <= newIndex s <= Z.of_nat (length c))%Z ->
   let c' := sequence_change normalize opts c s in
   length c' = S (length c) /\
   c' !! Z.to_nat (newIndex s) = Some (normalize (OfChange s) opts) /\
   (forall i : nat, (Z.of_nat i < newIndex s)%Z -> c' !! i = c !! i) /\
   (forall i : nat, (newIndex s <= Z.of_nat i)%Z -> c' !! S i = c !! i)) /\
  (type s = "removed" -> (0 <= oldIndex s < Z.of_nat (length c))%Z ->
   let c' := sequence_change normalize opts c s in
   S (length c') = length c /\
   (forall i : nat, (Z.of_nat i < oldIndex s)%Z -> c' !! i = c !! i) /\
   (forall i : nat, (oldIndex s <= Z.of_nat i)%Z -> c' !! i = c !! S i)) /\
  (forall (a b d : DocSnapshot Data) (oa ob od : Z),
   sequence_batch normalize opts []
     [mkChange "added" oa 0 a; mkChange "added" ob 1 b; mkChange "added" od 2 d]
   = [normalize (OfChange (mkChange "added" oa 0 a)) opts;
      normalize (OfChange (mkChange "added" ob 1 b)) opts;
      normalize (OfChange (mkChange "added" od 2 d)) opts]) /\
  (forall (x y z : Value) (r : Change Data),
   type r = "removed" -> oldIndex r = 1%Z ->
   sequence_change normalize opts [x; y; z] r = [x; z]).
Proof.
  split; [|split; [|split]].
  - intros Ht Hn. by apply added_shape.
  - intros Ht Hn. by apply removed_shape.
  - intros a b d oa ob od. reflexivity.
  - intros x y z r Ht Hi. rewrite sequence_change_removed by done.
    rewrite Hi. reflexivity.
Qed.

(** C2.  A Modified event with [oldIndex = newIndex] (a position of the
    container) replaces the element at that position by the freshly
    normalized document and changes no other position.  A Modified event
    with [oldIndex <> newIndex] deletes at [oldIndex] and then inserts the
    normalized document at [newIndex]: it does what a Removed event at
    [oldIndex] followed by an Added event at [newIndex] for the same
    normalized document does.  On a three-element sequence, oldIndex 0 and
    newIndex 2 give the second element, the third, and the updated
    document. *)
Theorem sequence_modified c s :
  type s = "modified" ->
  (oldIndex s = newIndex s ->
   (0 <= newIndex s < Z.of_nat (length c))%Z ->
   let c' := sequence_change normalize opts c s in
   length c' = length c /\
   c' !! Z.to_nat (newIndex s) = Some (normalize (OfChange s) opts) /\
   (forall i : nat, i <> Z.to_nat (newIndex s) -> c' !! i = c !! i)) /\
  (oldIndex s <> newIndex s ->
   sequence_change normalize opts c s
   = splice (splice c (oldIndex s) 1 []) (newIndex s) 0
       [normalize (OfChange s) opts] /\
   forall rem add : Change Data,
   type rem = "removed" -> oldIndex rem = oldIndex s ->
   type add = "added" -> newIndex add = newIndex s ->
   normalize (OfChange add) opts = normalize (OfChange s) opts ->
   sequence_change normalize opts c s
   = sequence_change normalize opts (sequence_change normalize opts c rem) add) /\
  (forall x y z : Value,
   oldIndex s = 0%Z -> newIndex s = 2%Z ->
   sequence_change normalize opts [x; y; z] s
   = [y; z; normalize (OfChange s) opts]).
Proof.
  intros Ht. split; [|split].
  - intros Hi Hn. by apply replaced_shape.
  - intros Hi. rewrite sequence_change_moved by done. split; [done|].
    intros rem add Hrt Hro Hat Han Hv.
    rewrite (sequence_change_added _ add) by done.
    rewrite (sequence_change_removed _ rem) by done.
    by rewrite Hro, Han, Hv.
  - intros x y z Ho Hn.
    rewrite sequence_change_moved; [|done|rewrite Ho, Hn; lia].
    rewrite Ho, Hn. reflexivity.
Qed.

End SequenceFacts.

(** ** The keyed strategy *)

Section KeyedFacts.
Context {Data : Type}.
Implicit Types (m : gmap string Data) (s : Change Data).

Lemma keyed_change_set m s :
  type s = "added" \/ type s = "modified" ->
  keyed_change m s = <[doc_id (doc s) := doc_data (doc s)]> m.
Proof. intros [Ht|Ht]; unfold keyed_change; by rewrite Ht. Qed.

Lemma keyed_change_removed m s :
  type s = "removed" -> keyed_change m s = delete (doc_id (doc s)) m.
Proof. intros Ht. unfold keyed_change. by rewrite Ht. Qed.

Lemma keyed_change_ignored m s :
  type s <> "added" -> type s <> "removed" -> type s <> "modified" ->
  keyed_change m s = m.
Proof.
  intros Ha Hr Hm. unfold keyed_change.
  apply String.eqb_neq in Ha, Hr, Hm. by rewrite Ha, Hr, Hm.
Qed.


End KeyedFacts.

(** ** Promises and listeners *)

Section LifecycleFacts.
Context {Data Value : Type}.
Variable normalize : Snapshot Data -> Options -> Value.
Implicit Types (w : @World Data Value) (l : Listener) (st : @PState Value).
Implicit Types (ns : list (@Notification Data Value)).

(** Settling touches the promise store only. *)
Lemma settle_frame p st w :
  globals (settle p st w) = globals w /\
  heap (settle p st w) = heap w /\
  vm_props (settle p st w) = vm_props w /\
  vm_firestore (settle p st w) = vm_firestore w /\
  listeners (settle p st w) = listeners w /\
  unsubscribed (settle p st w) = unsubscribed w /\
  settle_log (settle p st w) = settle_log w.
Proof.
  unfold settle. destruct (promises w !! p) as [[]|]; done.
Qed.

Lemma settle_lookup p st w old :
  promises w !! p = Some old ->
  promises (settle p st w) !! p
  = Some (match old with Pending => st | _ => old end).
Proof.
  intros Hp. unfold settle. rewrite Hp.
  destruct old; try done. cbn.
  apply list_lookup_insert_eq. by eapply lookup_lt_Some.
Qed.

Lemma settle_settled p st w old :
  promises w !! p = Some old -> old <> Pending -> settle p st w = w.
Proof. intros Hp Hold. unfold settle. rewrite Hp. by destruct old. Qed.

Lemma after_calls_settled st (calls : list (@SettleCall Value)) :
  st <> Pending -> fold_left after_call calls st = st.
Proof.
  intros Hst. induction calls as [|call calls IH]; cbn; [done|].
  destruct st; done.
Qed.

Lemma replay_cons (o : Options) (c : @object Data Value) n ns :
  replay normalize o c (n :: ns)
  = replay normalize o (replay normalize o c [n]) ns.
Proof. by destruct n. Qed.

Lemma set_heap_same w : set_heap (heap w) w = w.
Proof. by destruct w. Qed.

(** [alter] at a position that holds [x] writes [f x] there. *)
Lemma alter_at {A : Type} (f : A -> A) (xs : list A) (i : nat) (x : A) :
  xs !! i = Some x -> alter f i xs = <[i := f x]> xs.
Proof.
  revert i. induction xs as [|y xs IH]; intros [|i] Hx; try done.
  - cbn in Hx. injection Hx as ->. done.
  - cbn in *. f_equal. by apply IH.
Qed.

(** On an array the turns of the [forEach] are [sequence_batch]. *)
Lemma container_changes_array (o : Options) (items : list Value)
    (changes : list (Change Data)) :
  fold_left (container_change normalize o) changes (OArray items)
  = OArray (sequence_batch normalize o items changes).
Proof.
  revert items. induction changes as [|s rest IH]; intros items; [done|].
  cbn [fold_left container_change]. by rewrite IH.
Qed.

(** One change of [collectionOfObjects] on the plain object at [vm[key]]. *)
Lemma keyed_event_run w key t props (s : Change Data) :
  vm_props w !! key = Some (JRef t) ->
  heap w !! t = Some (OPlain props) ->
  keyed_event key s w
  = (set_heap (<[t := OPlain (keyed_change props s)]> (heap w)) w, Normal tt).
Proof.
  intros Hk Ht.
  assert (Hw : forall data,
    and_then (vm_get key)
      (fun target => Vue_write target (doc_id (doc s)) data) w
    = (set_heap
         (<[t := object_written (doc_id (doc s)) data (OPlain props)]> (heap w)) w,
       Normal tt)).
  { intros data. unfold and_then, vm_get. rewrite Hk. cbn. unfold update.
    by rewrite (alter_at _ _ _ _ Ht). }
  unfold keyed_event, keyed_change.
  destruct (String.eqb (type s) "added"); [by rewrite Hw|].
  destruct (String.eqb (type s) "removed"); [by rewrite Hw|].
  destruct (String.eqb (type s) "modified"); [by rewrite Hw|].
  unfold ret. rewrite list_insert_id by done. by rewrite set_heap_same.
Qed.

(** A batch of [collectionOfObjects] on the plain object at [vm[key]]. *)
Lemma keyed_events_run (changes : list (Change Data)) : forall w key t props,
  vm_props w !! key = Some (JRef t) ->
  heap w !! t = Some (OPlain props) ->
  forEach changes (keyed_event key) w
  = (set_heap (<[t := OPlain (keyed_batch props changes)]> (heap w)) w,
     Normal tt).
Proof.
  induction changes as [|s rest IH]; intros w key t props Hk Ht.
  - cbn. rewrite list_insert_id by done. by rewrite set_heap_same.
  - cbn [forEach]. unfold and_then.
    rewrite (keyed_event_run w key t props s Hk Ht).
    rewrite (IH _ key t (keyed_change props s)); cbn.
    + by rewrite list_insert_insert_eq.
    + done.
    + apply list_lookup_insert_eq. by eapply lookup_lt_Some.
Qed.

(** The first callback of either collection-mode binder: the batch on the
    container, then [resolve(container)]. *)
Lemma next_attached w l o changes :
  attached w l o ->
  notify normalize l (QuerySnapshot changes) w
  = call_resolve (l_promise l) (JRef (l_container l))
      (set_heap
         (<[l_container l := batch_on normalize (defaultOptions (globals w)) o changes]>
            (heap w)) w).
Proof.
  intros [Hc Hat]. cbn [notify].
  destruct (l_strategy l), o as [items|props| |]; try done.
  - unfold collections_next. rewrite (alter_at _ _ _ _ Hc).
    by rewrite container_changes_array.
  - unfold collectionOfObjects_next, and_then.
    by rewrite (keyed_events_run changes w (l_key l) (l_container l) props Hat Hc).
Qed.

(** One notification from a query to a collection-mode listener. *)
Lemma deliver_attached w h l o old n :
  listeners w !! h = Some l ->
  h ∉ unsubscribed w ->
  attached w l o ->
  promises w !! l_promise l = Some old ->
  from_query n = true ->
  exists w',
    deliver normalize h n w = (w', Normal tt) /\
    globals w' = globals w /\
    listeners w' = listeners w /\
    unsubscribed w' = unsubscribed w /\
    vm_firestore w' = vm_firestore w /\
    settle_log w' = settle_log w ++ [call_of l n] /\
    attached w' l (replay normalize (defaultOptions (globals w)) o [n]) /\
    promises w' !! l_promise l = Some (after_call old (call_of l n)).
Proof.
  intros Hl Hu Hat Hp Hn.
  unfold deliver. rewrite Hl. rewrite bool_decide_eq_false_2 by done.
  destruct n as [changes|d|error]; [| done |].
  - rewrite (next_attached w l o changes Hat).
    unfold call_resolve, update.
    eexists. split; [reflexivity|].
    match goal with |- context [settle ?p ?s ?x] =>
      pose proof (settle_frame p s x) as (Eg & Eh & Ev & Ef & El & Eu & Elog);
      rewrite (settle_lookup p s x old) by exact Hp
    end.
    rewrite Eg, El, Eu, Ef, Elog. unfold attached. rewrite Eh, Ev.
    destruct Hat as [Hc Hat]. cbn.
    repeat split; try done;
      first [ apply list_lookup_insert_eq; by eapply lookup_lt_Some
            | by destruct (l_strategy l), o
            | by destruct old ].
  - cbn [notify]. unfold call_reject, update.
    eexists. split; [reflexivity|].
    match goal with |- context [settle ?p ?s ?x] =>
      pose proof (settle_frame p s x) as (Eg & Eh & Ev & Ef & El & Eu & Elog);
      rewrite (settle_lookup p s x old) by exact Hp
    end.
    rewrite Eg, El, Eu, Ef, Elog. unfold attached. rewrite Eh, Ev.
    cbn. repeat split; try done; first [apply Hat | by destruct old].
Qed.

(** A whole feed from a query to a collection-mode listener. *)
Lemma deliver_all_attached ns : forall w h l o old,
  listeners w !! h = Some l ->
  h ∉ unsubscribed w ->
  attached w l o ->
  promises w !! l_promise l = Some old ->
  Forall (fun n => from_query n = true) ns ->
  exists w',
    deliver_all normalize h ns w = (w', Normal tt) /\
    settle_log w' = settle_log w ++ map (call_of l) ns /\
    attached w' l (replay normalize (defaultOptions (globals w)) o ns) /\
    promises w' !! l_promise l
      = Some (fold_left after_call (map (call_of l) ns) old).
Proof.
  induction ns as [|n rest IH]; intros w h l o old Hl Hu Hat Hp Hq.
  - exists w. cbn. by rewrite app_nil_r.
  - apply Forall_cons in Hq as [Hn Hrest].
    destruct (deliver_attached w h l o old n Hl Hu Hat Hp Hn)
      as (w1 & Hrun & Hg & Hls & Hus & _ & Hlog & Hat1 & Hprom).
    assert (Hl1 : listeners w1 !! h = Some l) by (by rewrite Hls).
    assert (Hu1 : h ∉ unsubscribed w1) by (by rewrite Hus).
    destruct (IH w1 h l _ _ Hl1 Hu1 Hat1 Hprom Hrest)
      as (w2 & Hrun2 & Hlog2 & Hat2 & Hprom2).
    exists w2. split; [|split; [|split]].
    + unfold deliver_all in *. cbn [forEach]. unfold and_then at 1.
      by rewrite Hrun.
    + rewrite Hlog2, Hlog. cbn [map]. by rewrite <- app_assoc.
    + rewrite replay_cons. by rewrite Hg in Hat2.
    + rewrite Hprom2. done.
Qed.

(** A call of [resolve] or [reject] of a promise: the owner and the heap
    are as before, the log has one more call, the promise is settled if it
    was pending. *)
Lemma settle_call w p (call : @SettleCall Value) old :
  promises w !! p = Some old ->
  let w' := settle p (match call with
                      | CallResolve _ v => Fulfilled v
                      | CallReject _ e => Rejected e
                      end)
              (set_settle_log (settle_log w ++ [call]) w) in
  same_owner w w' /\ heap w' = heap w /\ host_writes w' = host_writes w /\
  settle_log w' = settle_log w ++ [call] /\
  promises w' !! p = Some (after_call old call).
Proof.
  intros Hp. cbn zeta.
  match goal with |- context [settle ?q ?s ?x] =>
    pose proof (settle_frame q s x) as (Eg & Eh & Ev & Ef & El & Eu & Elog);
    rewrite (settle_lookup q s x old) by exact Hp
  end.
  unfold same_owner. rewrite Eg, Eh, Ev, Ef, El, Eu, Elog.
  assert (Ehw : forall q s (x : @World Data Value),
            host_writes (settle q s x) = host_writes x).
  { intros q s x. unfold settle. by destruct (promises x !! q) as [[]|]. }
  rewrite Ehw. cbn. repeat split; try done; try by destruct old, call.
Qed.

(** The host's writes touch the heap, or the log of writes on documents. *)
Lemma Vue_write_run w (target : @jsval Value) id (data : option Data) :
  target <> JUndefined ->
  exists w',
    Vue_write target id data w = (w', Normal tt) /\
    same_owner w w' /\ promises w' = promises w /\
    settle_log w' = settle_log w.
Proof.
  intros Hdef. destruct target; try done; eexists; (split; [reflexivity|]);
    by cbn.
Qed.

Lemma keyed_event_completes w key (target : @jsval Value) (s : Change Data) :
  vm_props w !! key = Some target -> target <> JUndefined ->
  exists w',
    keyed_event key s w = (w', Normal tt) /\
    same_owner w w' /\ promises w' = promises w /\
    settle_log w' = settle_log w.
Proof.
  intros Hk Hdef.
  assert (Hw : forall data,
    exists w',
      and_then (vm_get key)
        (fun target => Vue_write target (doc_id (doc s)) data) w
      = (w', Normal tt) /\
      same_owner w w' /\ promises w' = promises w /\
      settle_log w' = settle_log w).
  { intros data. unfold and_then, vm_get. rewrite Hk. cbn [default from_option id].
    by apply Vue_write_run. }
  unfold keyed_event.
  destruct (String.eqb (type s) "added"); [apply Hw|].
  destruct (String.eqb (type s) "removed"); [apply Hw|].
  destruct (String.eqb (type s) "modified"); [apply Hw|].
  exists w. by repeat split.
Qed.

Lemma keyed_events_complete (changes : list (Change Data)) :
  forall w key (target : @jsval Value),
  vm_props w !! key = Some target -> target <> JUndefined ->
  exists w',
    forEach changes (keyed_event key) w = (w', Normal tt) /\
    same_owner w w' /\ promises w' = promises w /\
    settle_log w' = settle_log w.
Proof.
  induction changes as [|s rest IH]; intros w key target Hk Hdef.
  - exists w. by repeat split.
  - destruct (keyed_event_completes w key target s Hk Hdef)
      as (w1 & E1 & (Hg1 & Hv1 & Hf1 & Hl1 & Hu1) & Hp1 & Hlog1).
    destruct (IH w1 key target) as (w2 & E2 & (Hg2 & Hv2 & Hf2 & Hl2 & Hu2) & Hp2 & Hlog2);
      [by rewrite Hv1|done|].
    exists w2. split.
    + cbn [forEach]. unfold and_then. by rewrite E1.
    + unfold same_owner. by rewrite Hg2, Hv2, Hf2, Hl2, Hu2, Hp2, Hlog2.
Qed.

(** One notification from a query to the listener of a collection-mode
    binding, whatever its container has become. *)
Lemma deliver_collection_listener w h l old n :
  listeners w !! h = Some l ->
  h ∉ unsubscribed w ->
  collection_listener w l ->
  promises w !! l_promise l = Some old ->
  from_query n = true ->
  exists w',
    deliver normalize h n w = (w', Normal tt) /\
    same_owner w w' /\
    settle_log w' = settle_log w ++ [call_of l n] /\
    promises w' !! l_promise l = Some (after_call old (call_of l n)).
Proof.
  intros Hl Hu Hmode Hp Hn.
  unfold deliver. rewrite Hl. rewrite bool_decide_eq_false_2 by done.
  destruct n as [changes|d|error]; [| done |]; cbn [notify call_of].
  - unfold collection_listener in Hmode.
    destruct (l_strategy l); [| |done].
    + unfold collections_next, call_resolve, update.
      eexists. split; [reflexivity|].
      match goal with |- context [settle ?q ?s (set_settle_log ?lg ?x)] =>
        destruct (settle_call x q (CallResolve q (JRef (l_container l))) old Hp)
          as (Hsame & _ & _ & Hlog & Hprom)
      end.
      split; [exact Hsame|]. split; [exact Hlog|exact Hprom].
    + destruct Hmode as (target & Hk & Hdef).
      destruct (keyed_events_complete changes w (l_key l) target Hk Hdef)
        as (w1 & E1 & (Hg1 & Hv1 & Hf1 & Hl1 & Hu1) & Hp1 & Hlog1).
      unfold collectionOfObjects_next, and_then. rewrite E1.
      unfold call_resolve, update.
      eexists. split; [reflexivity|].
      assert (Hp' : promises w1 !! l_promise l = Some old) by (by rewrite Hp1).
      destruct (settle_call w1 (l_promise l)
                  (CallResolve (l_promise l) (JRef (l_container l))) old Hp')
        as ((Hg & Hv & Hf & Hls & Hus) & _ & _ & Hlog & Hprom).
      cbn zeta in *. unfold same_owner.
      rewrite Hg, Hv, Hf, Hls, Hus, Hlog, Hprom, Hg1, Hv1, Hf1, Hl1, Hu1, Hlog1.
      done.
  - unfold call_reject, update.
    eexists. split; [reflexivity|].
    destruct (settle_call w (l_promise l) (CallReject (l_promise l) error) old Hp)
      as (Hsame & _ & _ & Hlog & Hprom).
    split; [exact Hsame|]. split; [exact Hlog|exact Hprom].
Qed.

(** A whole feed from a query to such a listener. *)
Lemma deliver_all_collection_listener ns : forall w h l old,
  listeners w !! h = Some l ->
  h ∉ unsubscribed w ->
  collection_listener w l ->
  promises w !! l_promise l = Some old ->
  Forall (fun n => from_query n = true) ns ->
  exists w',
    deliver_all normalize h ns w = (w', Normal tt) /\
    same_owner w w' /\
    settle_log w' = settle_log w ++ map (call_of l) ns /\
    promises w' !! l_promise l
      = Some (fold_left after_call (map (call_of l) ns) old).
Proof.
  induction ns as [|n rest IH]; intros w h l old Hl Hu Hmode Hp Hq.
  - exists w. cbn. rewrite app_nil_r. by repeat split.
  - apply Forall_cons in Hq as [Hn Hrest].
    destruct (deliver_collection_listener w h l old n Hl Hu Hmode Hp Hn)
      as (w1 & Hrun & (Hg & Hv & Hf & Hls & Hus) & Hlog & Hprom).
    assert (Hl1 : listeners w1 !! h = Some l) by (by rewrite Hls).
    assert (Hu1 : h ∉ unsubscribed w1) by (by rewrite Hus).
    assert (Hmode1 : collection_listener w1 l).
    { unfold collection_listener in *. by rewrite Hv. }
    destruct (IH w1 h l _ Hl1 Hu1 Hmode1 Hprom Hrest)
      as (w2 & Hrun2 & (Hg2 & Hv2 & Hf2 & Hls2 & Hus2) & Hlog2 & Hprom2).
    exists w2. split; [|split; [|split]].
    + unfold deliver_all in *. cbn [forEach]. unfold and_then at 1.
      by rewrite Hrun.
    + unfold same_owner. by rewrite Hg2, Hv2, Hf2, Hls2, Hus2.
    + rewrite Hlog2, Hlog. cbn [map]. by rewrite <- app_assoc.
    + rewrite Hprom2. done.
Qed.


(** The first callback of [collections] on the array it captured. *)
Lemma collections_next_run w l items changes :
  heap w !! l_container l = Some (OArray items) ->
  let r := collections_next normalize l changes w in
  r.2 = Normal tt /\
  heap r.1
  = <[l_container l :=
        OArray (sequence_batch normalize (defaultOptions (globals w)) items changes)]>
      (heap w) /\
  vm_props r.1 = vm_props w.
Proof.
  intros Hc. cbn zeta. unfold collections_next.
  rewrite (alter_at _ _ _ _ Hc), container_changes_array.
  unfold call_resolve, update. cbn [fst snd].
  match goal with |- context [settle ?p ?s ?x] =>
    destruct (settle_frame p s x) as (_ & -> & -> & _)
  end.
  done.
Qed.

Lemma collectionOfObjects_next_run w l t props changes :
  vm_props w !! l_key l = Some (JRef t) ->
  heap w !! t = Some (OPlain props) ->
  let r := collectionOfObjects_next l changes w in
  r.2 = Normal tt /\
  heap r.1 = <[t := OPlain (keyed_batch props changes)]> (heap w) /\
  vm_props r.1 = vm_props w.
Proof.
  intros Hk Ht. cbn zeta. unfold collectionOfObjects_next, and_then.
  rewrite (keyed_events_run changes w (l_key l) t props Hk Ht).
  unfold call_resolve, update. cbn [fst snd].
  match goal with |- context [settle ?p ?st ?x] =>
    destruct (settle_frame p st x) as (_ & -> & -> & _)
  end.
  done.
Qed.

(** C8 (amended).  Applying a batch to a sequence container is
    deterministic given the options in force: in any two worlds that agree
    on the container and on [defaultOptions], the listener leaves the same
    container, the one [sequence_batch] computes from the container, the
    batch and the options -- nothing else in the world has a say. *)
Theorem sequence_batch_deterministic (opts : Options) (c : list Value)
    (changes : list (Change Data)) w1 w2 l :
  heap w1 !! l_container l = Some (OArray c) ->
  heap w2 !! l_container l = Some (OArray c) ->
  defaultOptions (globals w1) = opts ->
  defaultOptions (globals w2) = opts ->
  heap (collections_next normalize l changes w1).1 !! l_container l
  = heap (collections_next normalize l changes w2).1 !! l_container l /\
  heap (collections_next normalize l changes w1).1 !! l_container l
  = Some (OArray (sequence_batch normalize opts c changes)).
Proof.
  intros Hc1 Hc2 Ho1 Ho2.
  destruct (collections_next_run w1 l c changes Hc1) as (_ & -> & _).
  destruct (collections_next_run w2 l c changes Hc2) as (_ & -> & _).
  rewrite Ho1, Ho2.
  rewrite !list_lookup_insert_eq by (by eapply lookup_lt_Some). done.
Qed.

Lemma known_type_false (s : Change Data) :
  type s <> "added" -> type s <> "removed" -> type s <> "modified" ->
  known_type s = false.
Proof.
  intros Ha Hr Hm. unfold known_type.
  apply String.eqb_neq in Ha, Hr, Hm. by rewrite Ha, Hr, Hm.
Qed.

(** C9.  A change whose type is none of "added", "removed", "modified" is
    ignored by both strategies: the array and the mapping are returned as
    they were, and a listener of either binder that receives such a change
    completes without an exception and leaves the heap, the owner's
    properties and the log of the host's writes as they were, whatever the
    container and [vm[key]] hold. *)
Theorem unknown_change_ignored (s : Change Data) :
  type s <> "added" -> type s <> "removed" -> type s <> "modified" ->
  (forall (opts : Options) (c : list Value),
   sequence_change normalize opts c s = c) /\
  (forall m : gmap string Data, keyed_change m s = m) /\
  (forall w l,
   l_strategy l = Collections \/ l_strategy l = CollectionOfObjects ->
   let r := notify normalize l (QuerySnapshot [s]) w in
   r.2 = Normal tt /\ heap r.1 = heap w /\ vm_props r.1 = vm_props w /\
   host_writes r.1 = host_writes w).
Proof.
  intros Ha Hr Hm. split; [|split].
  - intros opts c. by apply sequence_change_ignored.
  - intros m. by apply keyed_change_ignored.
  - intros w l Hs. cbn zeta. cbn [notify].
    assert (Hframe : forall p (v : @jsval Value) (x : @World Data Value),
      (call_resolve p v x).2 = Normal tt /\
      heap (call_resolve p v x).1 = heap x /\
      vm_props (call_resolve p v x).1 = vm_props x /\
      host_writes (call_resolve p v x).1 = host_writes x).
    { intros p v x. unfold call_resolve, update, settle. cbn [fst snd].
      by destruct (promises _ !! p) as [[]|]. }
    destruct Hs as [Hs|Hs]; rewrite Hs.
    + unfold collections_next. cbn [fold_left].
      rewrite list_alter_id.
      * rewrite set_heap_same. apply Hframe.
      * intros o. destruct o; cbn [container_change];
          rewrite ?known_type_false by done; try done.
        by rewrite sequence_change_ignored.
    + unfold collectionOfObjects_next, and_then. cbn [forEach].
      unfold and_then, keyed_event.
      apply String.eqb_neq in Ha, Hr, Hm. rewrite Ha, Hr, Hm.
      cbn [ret]. apply Hframe.
Qed.

(** ** The owner's side table *)

Lemma firestore_delete_run w key t :
  vm_firestore w = Some t ->
  firestore_delete key w = (set_vm_firestore (Some (delete key t)) w, Normal tt).
Proof. intros Ht. unfold firestore_delete. by rewrite Ht. Qed.

Lemma firestore_delete_null w key :
  vm_firestore w = None ->
  firestore_delete key w
  = (w, Throw (TypeError "cannot convert null to object")).
Proof. intros Ht. unfold firestore_delete. by rewrite Ht. Qed.

Lemma unbind_each (keys : list string) : forall w t,
  vm_firestore w = Some t ->
  exists t', forEach keys unbind w = (set_vm_firestore (Some t') w, Normal tt).
Proof.
  induction keys as [|key rest IH]; intros w t Ht.
  - exists t. cbn. unfold ret. by destruct w; cbn in *; subst.
  - cbn [forEach]. unfold and_then, unbind at 1.
    rewrite (firestore_delete_run w key t Ht).
    destruct (IH (set_vm_firestore (Some (delete key t)) w) (delete key t) eq_refl)
      as (t' & ->).
    by exists t'.
Qed.

(** [beforeDestroy] leaves the owner without a side table, and touches
    nothing else; [unbind] then throws. *)
Lemma beforeDestroy_run w t :
  vm_firestore w = Some t ->
  beforeDestroy w = (set_vm_firestore None w, Normal tt).
Proof.
  intros Ht. unfold beforeDestroy. rewrite Ht. unfold and_then.
  destruct (unbind_each (map_to_list t).*1 w t Ht) as (t' & ->). done.
Qed.

Lemma unbind_after_beforeDestroy w t key :
  vm_firestore w = Some t ->
  (unbind key (beforeDestroy w).1).2
  = Throw (TypeError "cannot convert null to object").
Proof.
  intros Ht. rewrite (beforeDestroy_run w t Ht). cbn [fst].
  unfold unbind. by rewrite firestore_delete_null.
Qed.

(** C3 (amended).  With the side table in place, [unbind] removes the
    owner's entry for the key and changes nothing else: the listeners stay
    subscribed, no unsubscribe function is called, and containers, promises
    and properties are as before.  A second [unbind] of the key completes
    without an exception and changes nothing. *)
Theorem unbind_removes_entry w key t :
  vm_firestore w = Some t ->
  let r := unbind key w in
  r.2 = Normal tt /\
  r.1 = set_vm_firestore (Some (delete key t)) w /\
  vm_firestore r.1 = Some (delete key t) /\
  delete key t !! key = None /\
  listeners r.1 = listeners w /\
  unsubscribed r.1 = unsubscribed w /\
  heap r.1 = heap w /\ promises r.1 = promises w /\
  vm_props r.1 = vm_props w /\ settle_log r.1 = settle_log w /\
  unbind key r.1 = (r.1, Normal tt).
Proof.
  intros Ht. cbn zeta. unfold unbind.
  rewrite (firestore_delete_run w key t Ht). cbn [fst snd].
  repeat split; try done.
  - apply lookup_delete_eq.
  - rewrite (firestore_delete_run _ key (delete key t)) by done.
    cbn. by rewrite delete_delete_eq.
Qed.

(** ** A document that does not exist *)

(** Where [console] has no [warning] method, the else-branch of [documents]
    deletes the entry and throws before [reject] is reached. *)
Lemma documents_absent_throws w l t :
  console_warning (globals w) = None ->
  vm_firestore w = Some t ->
  documents_absent l w
  = (set_vm_firestore (Some (delete (l_key l) t)) w,
     Throw (TypeError "console.warning is not a function")).
Proof.
  intros Hc Ht. unfold documents_absent, and_then.
  rewrite (firestore_delete_run w (l_key l) t Ht).
  unfold console_warning_call. cbn. by rewrite Hc.
Qed.

Lemma documents_next_absent_throws w l t (d : DocSnapshot Data) :
  doc_exists d = false ->
  console_warning (globals w) = None ->
  vm_firestore w = Some t ->
  let r := documents_next normalize l d w in
  r.2 = Throw (TypeError "console.warning is not a function") /\
  vm_firestore r.1 = Some (delete (l_key l) t) /\
  promises r.1 = promises w /\
  settle_log r.1 = settle_log w.
Proof.
  intros Hd Hc Ht. cbn zeta. unfold documents_next. rewrite Hd.
  unfold and_then. by rewrite (documents_absent_throws w l t Hc Ht).
Qed.

(** Where [console.warning] is a function [f], the promise is rejected, if
    it is still pending, with what [f] returns. *)
Lemma documents_next_absent_warned w l t f (d : DocSnapshot Data) :
  doc_exists d = false ->
  console_warning (globals w) = Some f ->
  vm_firestore w = Some t ->
  promises w !! l_promise l = Some Pending ->
  let r := documents_next normalize l d w in
  r.2 = Normal tt /\
  vm_firestore r.1 = Some (delete (l_key l) t) /\
  promises r.1 !! l_promise l
  = Some (Rejected (f (missing_message (l_key l)))).
Proof.
  intros Hd Hc Ht Hp. cbn zeta. unfold documents_next. rewrite Hd.
  unfold documents_absent, documents_resolve, and_then.
  rewrite (firestore_delete_run w (l_key l) t Ht).
  unfold console_warning_call. cbn [globals set_vm_firestore]. rewrite Hc.
  unfold call_reject, call_resolve, vm_get, update. cbn [fst snd].
  set (w1 := settle _ (Rejected _) _).
  assert (H1 : promises w1 !! l_promise l
               = Some (Rejected (f (missing_message (l_key l))))).
  { subst w1. by rewrite (settle_lookup _ _ _ Pending). }
  assert (F1 : vm_firestore w1 = Some (delete (l_key l) t)).
  { subst w1.
    match goal with |- context [settle ?p ?s ?x] =>
      destruct (settle_frame p s x) as (_ & _ & _ & -> & _)
    end. done. }
  split; [done|].
  match goal with |- context [settle ?p ?s ?x] =>
    destruct (settle_frame p s x) as (_ & _ & _ & -> & _);
    erewrite (settle_lookup p s x) by (cbn; exact H1)
  end.
  done.
Qed.

(** ** [bind] *)

Lemma defineReactive_run w key (val : @jsval Value) :
  defineReactive key val w
  = (set_vm_props (<[key := val]> (vm_props w)) w, Normal tt).
Proof. unfold defineReactive. by destruct (vm_props w !! key). Qed.

Ltac run_binder Ht :=
  unfold and_then, firestore_set; rewrite Ht;
  unfold alloc; rewrite defineReactive_run; reflexivity.

Lemma collections_run w key source p t :
  vm_firestore w = Some t ->
  collections key source p w
  = (subscribed w key source p t Collections, Normal tt).
Proof. intros Ht. unfold collections. run_binder Ht. Qed.

Lemma collectionOfObjects_run w key source p t :
  vm_firestore w = Some t ->
  collectionOfObjects key source p w
  = (subscribed w key source p t CollectionOfObjects, Normal tt).
Proof. intros Ht. unfold collectionOfObjects. run_binder Ht. Qed.

Lemma documents_run w key source p t :
  vm_firestore w = Some t ->
  documents key source p w
  = (subscribed w key source p t Documents, Normal tt).
Proof. intros Ht. unfold documents. run_binder Ht. Qed.

(** Without a side table a binder throws at its first statement, and the
    promise under construction is rejected. *)
Lemma binder_without_table w key source p :
  vm_firestore w = None ->
  collections key source p w
    = (w, Throw (TypeError "cannot set a property of null")) /\
  collectionOfObjects key source p w
    = (w, Throw (TypeError "cannot set a property of null")) /\
  documents key source p w
    = (w, Throw (TypeError "cannot set a property of null")).
Proof.
  intros Ht.
  unfold collections, collectionOfObjects, documents, and_then, firestore_set.
  by rewrite Ht.
Qed.


(** [bind] on a descriptor returns the chained promise, whether or not the
    binder threw. *)
Lemma bind_wrapped_returns w key d params :
  (bind key (Wrapped d) params w).2
  = Normal (ThenCatch (length (promises w))
      (default noop (d_resolve d)) (default noop (d_reject d))).
Proof.
  unfold bind, and_then, new_promise. cbn [truthy orb].
  destruct (d_objects d); [|destruct (ref_where (d_ref d))];
    match goal with
    | |- context [match ?c ?k ?s ?p ?x with _ => _ end] =>
        destruct (c k s p x) as [? []]
    end; done.
Qed.

Lemma bind_plain_returns w key r params :
  (bind key (Plain r) params w).2 = Normal (Binding (length (promises w))).
Proof.
  unfold bind, and_then, new_promise. cbn [truthy orb].
  destruct (objects params); [|destruct (ref_where r)];
    match goal with
    | |- context [match ?c ?k ?s ?p ?x with _ => _ end] =>
        destruct (c k s p x) as [? []]
    end; done.
Qed.

(** C10 (amended).  [bind] on a descriptor with a [ref] returns
    [binding.then(res => resolve(res)).catch(err => reject(err))], with the
    no-op for a callback the descriptor lacks.  A rejection of [binding], and
    an exception of the resolve callback, is routed to the reject callback,
    and the returned promise takes the outcome of that call: fulfilled with
    what the callback returns, rejected with what it throws.  While [binding]
    is pending so is the returned promise.  When the reject callback neither
    throws nor returns a promise that rejects, the returned promise is never
    rejected. *)
Theorem wrapped_bind_routes_rejection w key d params :
  let resolve := default noop (d_resolve d) in
  let reject := default noop (d_reject d) in
  let b := ThenCatch (length (promises w)) resolve reject in
  (bind key (Wrapped d) params w).2 = Normal b /\
  (forall w' : @World Data Value,
   (promises w' !! length (promises w) = Some Pending ->
    bound_state w' b = Pending) /\
   (forall e : jsval,
    promises w' !! length (promises w) = Some (Rejected e) ->
    bound_state w' b = adopt (reject e) /\
    (forall v, reject e = Returns v -> bound_state w' b = Fulfilled v) /\
    (forall x, reject e = Raises x -> bound_state w' b = Rejected x)) /\
   (forall v : jsval,
    promises w' !! length (promises w) = Some (Fulfilled v) ->
    (forall x, resolve v = Returns x -> bound_state w' b = Fulfilled x) /\
    (forall x, resolve v = Raises x -> bound_state w' b = adopt (reject x))) /\
   (completes_normally reject -> never_rejected w' b)).
Proof.
  cbn zeta. split; [apply bind_wrapped_returns|].
  intros w'. unfold bound_state. split; [|split; [|split]].
  - by intros ->.
  - intros e ->. cbn. split; [done|]. split; by intros ? ->.
  - intros v ->. cbn. split; by intros ? ->.
  - intros Hq e. unfold bound_state.
    destruct (promises w' !! length (promises w)) as [[|v|x]|]; cbn;
      try done; try apply Hq.
    destruct (default noop (d_resolve d) v) as [y|y|[|y|y]]; cbn;
      try done; apply Hq.
Qed.

End LifecycleFacts.

(** * The properties at work on the concrete store *)

Lemma sequence_added_removed_witness :
  sequence_change spec_normalize initialOptions
    [spec_normalize (OfChange (added 0 (sample_doc "A" "Ann"))) initialOptions;
     spec_normalize (OfChange (added 1 (sample_doc "C" "Cy"))) initialOptions]
    (added 1 (sample_doc "B" "Bob")) !! 1%nat
  = Some (spec_normalize (OfChange (added 1 (sample_doc "B" "Bob"))) initialOptions)
  /\
  S (length (sequence_change spec_normalize initialOptions
       [spec_normalize (OfChange (added 0 (sample_doc "A" "Ann"))) initialOptions;
        spec_normalize (OfChange (added 1 (sample_doc "B" "Bob"))) initialOptions;
        spec_normalize (OfChange (added 2 (sample_doc "C" "Cy"))) initialOptions]
       (removed 1 (sample_doc "B" "Bob"))))
  = 3%nat.
Proof.
  split.
  - destruct (sequence_added_removed spec_normalize initialOptions
        [spec_normalize (OfChange (added 0 (sample_doc "A" "Ann"))) initialOptions;
         spec_normalize (OfChange (added 1 (sample_doc "C" "Cy"))) initialOptions]
        (added 1 (sample_doc "B" "Bob"))) as (Hadd & _).
    destruct (Hadd eq_refl) as (_ & Hat & _); [cbn; lia|]. exact Hat.
  - destruct (sequence_added_removed spec_normalize initialOptions
        [spec_normalize (OfChange (added 0 (sample_doc "A" "Ann"))) initialOptions;
         spec_normalize (OfChange (added 1 (sample_doc "B" "Bob"))) initialOptions;
         spec_normalize (OfChange (added 2 (sample_doc "C" "Cy"))) initialOptions]
        (removed 1 (sample_doc "B" "Bob"))) as (_ & Hrem & _).
    destruct (Hrem eq_refl) as (Hlen & _); [cbn; lia|]. exact Hlen.
Defined.

Lemma sequence_modified_witness :
  sequence_change spec_normalize initialOptions
    [spec_normalize (OfChange (added 0 (sample_doc "A" "Ann"))) initialOptions;
     spec_normalize (OfChange (added 1 (sample_doc "B" "Bob"))) initialOptions;
     spec_normalize (OfChange (added 2 (sample_doc "C" "Cy"))) initialOptions]
    (modified 0 2 (sample_doc "A" "Anna"))
  = [spec_normalize (OfChange (added 1 (sample_doc "B" "Bob"))) initialOptions;
     spec_normalize (OfChange (added 2 (sample_doc "C" "Cy"))) initialOptions;
     spec_normalize (OfChange (modified 0 2 (sample_doc "A" "Anna"))) initialOptions]
  /\
  sequence_change spec_normalize initialOptions
    [spec_normalize (OfChange (added 0 (sample_doc "A" "Ann"))) initialOptions;
     spec_normalize (OfChange (added 1 (sample_doc "B" "Bob"))) initialOptions]
    (modified 1 1 (sample_doc "B" "Bobby")) !! 1%nat
  = Some (spec_normalize (OfChange (modified 1 1 (sample_doc "B" "Bobby")))
            initialOptions).
Proof.
  split.
  - destruct (sequence_modified spec_normalize initialOptions
        [spec_normalize (OfChange (added 0 (sample_doc "A" "Ann"))) initialOptions;
         spec_normalize (OfChange (added 1 (sample_doc "B" "Bob"))) initialOptions;
         spec_normalize (OfChange (added 2 (sample_doc "C" "Cy"))) initialOptions]
        (modified 0 2 (sample_doc "A" "Anna")) eq_refl) as (_ & _ & Hmove).
    exact (Hmove _ _ _ eq_refl eq_refl).
  - destruct (sequence_modified spec_normalize initialOptions
        [spec_normalize (OfChange (added 0 (sample_doc "A" "Ann"))) initialOptions;
         spec_normalize (OfChange (added 1 (sample_doc "B" "Bob"))) initialOptions]
        (modified 1 1 (sample_doc "B" "Bobby")) eq_refl) as (Hsame & _).
    destruct (Hsame eq_refl) as (_ & Hat & _); [cbn; lia|]. exact Hat.
Defined.




Lemma sequence_batch_deterministic_witness :
  heap (collections_next spec_normalize items_listener
          [added 0 (sample_doc "A" "Ann"); added 1 (sample_doc "B" "Bob");
           removed 0 (sample_doc "A" "Ann")] items_bound).1 !! 0%nat
  = Some (OArray
      [spec_normalize (OfChange (added 1 (sample_doc "B" "Bob"))) initialOptions])
  /\
  heap (collections_next spec_normalize items_listener
          [added 0 (sample_doc "A" "Ann"); added 1 (sample_doc "B" "Bob");
           removed 0 (sample_doc "A" "Ann")] items_failed).1 !! 0%nat
  = Some (OArray
      [spec_normalize (OfChange (added 1 (sample_doc "B" "Bob"))) initialOptions]).
Proof.
  destruct (sequence_batch_deterministic spec_normalize initialOptions []
              [added 0 (sample_doc "A" "Ann"); added 1 (sample_doc "B" "Bob");
               removed 0 (sample_doc "A" "Ann")]
              items_bound items_failed items_listener
              eq_refl eq_refl eq_refl eq_refl) as (Hsame & Hone).
  split; [exact Hone|].
  exact (eq_trans (eq_sym Hsame) Hone).
Defined.

(** C8, as stated, fails: [install(Vue, { key: 'docId' })] rewrites the
    module's [defaultOptions], which the listener reads when it normalizes a
    document; the same batch on the same empty array then leaves a
    different element. *)
Lemma options_change_the_container :
  ~ container_alone_decides spec_normalize [] [added 0 (sample_doc "A" "Ann")].
Proof.
  intros Hsame.
  specialize (Hsame items_bound items_bound_with_docId items_listener
                eq_refl eq_refl).
  vm_compute in Hsame. discriminate Hsame.
Qed.

Lemma unknown_change_ignored_witness :
  sequence_change spec_normalize initialOptions
    [spec_normalize (OfChange (added 0 (sample_doc "A" "Ann"))) initialOptions]
    (touched (sample_doc "A" "Ann"))
  = [spec_normalize (OfChange (added 0 (sample_doc "A" "Ann"))) initialOptions]
  /\
  keyed_change ({["A" := [("name", "Ann")]]} : gmap string FieldData)
    (touched (sample_doc "A" "Ann"))
  = {["A" := [("name", "Ann")]]}
  /\
  (let r := notify spec_normalize items_listener
              (QuerySnapshot [touched (sample_doc "A" "Ann")]) items_bound in
   r.2 = Normal tt /\ heap r.1 = heap items_bound)
  /\
  (let r := notify spec_normalize first_objects_listener
              (QuerySnapshot [touched (sample_doc "A" "Ann")])
              items_rebound_as_array in
   r.2 = Normal tt /\ heap r.1 = heap items_rebound_as_array /\
   vm_props r.1 = vm_props items_rebound_as_array)
  /\
  (let r := notify spec_normalize first_objects_listener
              (QuerySnapshot [touched (sample_doc "A" "Ann")])
              fresh_owner in
   r.2 = Normal tt /\ heap r.1 = heap fresh_owner).
Proof.
  assert (Ha : type (touched (sample_doc "A" "Ann")) <> "added") by discriminate.
  assert (Hr : type (touched (sample_doc "A" "Ann")) <> "removed") by discriminate.
  assert (Hm : type (touched (sample_doc "A" "Ann")) <> "modified") by discriminate.
  destruct (unknown_change_ignored spec_normalize
              (touched (sample_doc "A" "Ann")) Ha Hr Hm)
    as (Hseq & Hkeyed & Hlistener).
  split; [apply Hseq|]. split; [apply Hkeyed|].
  split; [|split].
  - destruct (Hlistener items_bound items_listener (or_introl eq_refl))
      as (Hn & Hh & _).
    by split.
  - destruct (Hlistener items_rebound_as_array first_objects_listener
                (or_intror eq_refl)) as (Hn & Hh & Hv & _).
    by repeat split.
  - destruct (Hlistener fresh_owner first_objects_listener
                (or_intror eq_refl)) as (Hn & Hh & _).
    by split.
Defined.

Lemma unbind_removes_entry_witness :
  (unbind "items" items_bound).2 = Normal tt /\
  listeners (unbind "items" items_bound).1 = [items_listener] /\
  unsubscribed (unbind "items" items_bound).1 = [] /\
  unbind "items" (unbind "items" items_bound).1
  = ((unbind "items" items_bound).1, Normal tt).
Proof.
  destruct (unbind_removes_entry items_bound "items"
              (<["items" := items_query]> ∅) eq_refl)
    as (Hr & _ & _ & _ & Hl & Hu & _ & _ & _ & _ & Hagain).
  split; [exact Hr|]. split; [exact Hl|]. split; [exact Hu|]. exact Hagain.
Defined.

(** C3, as stated, fails: after [$binding('items', query)] and
    [$unbind('items')] the listener of the binding is still subscribed; the
    unsubscribe function was not called. *)
Lemma unbind_does_not_release : ~ unbind_releases items_bound "items".
Proof.
  intros Hrel.
  specialize (Hrel 0%nat items_listener eq_refl eq_refl).
  change (unsubscribed (unbind "items" items_bound).1) with (@nil nat) in Hrel.
  by apply not_elem_of_nil in Hrel.
Qed.

(** C4.  A document binding whose first notification reports that the
    document does not exist: the entry of the key leaves the side table, and
    then [console.warning], which the console does not have, is called; the
    listener ends in a TypeError, [reject] is not called, and the promise
    stays pending. *)
Theorem missing_document_leaves_promise_pending :
  let r := deliver spec_normalize 0 (DocumentSnapshot missing_profile)
             profile_bound in
  r.2 = Throw (TypeError "console.warning is not a function") /\
  vm_firestore r.1 = Some ∅ /\
  settle_log r.1 = [] /\
  promises r.1 !! 0%nat = Some Pending /\
  bound_state r.1 (Binding 0) = Pending.
Proof.
  cbn zeta.
  change (deliver spec_normalize 0 (DocumentSnapshot missing_profile) profile_bound)
    with (documents_next spec_normalize
            (mkListener profile_document Documents "profile" 0 0)
            missing_profile profile_bound).
  destruct (documents_next_absent_throws spec_normalize profile_bound
              (mkListener profile_document Documents "profile" 0 0)
              (<["profile" := profile_document]> ∅) missing_profile
              eq_refl eq_refl eq_refl) as (Hr & Ht & Hp & Hlog).
  split; [exact Hr|]. split.
  { rewrite Ht. cbn [l_key]. by rewrite delete_insert_eq, delete_empty. }
  split; [by rewrite Hlog|].
  unfold bound_state. rewrite Hp. done.
Qed.



Lemma wrapped_bind_routes_rejection_witness :
  (bind "items" wrapped_query (mkParams false) owner_with_table).2
  = Normal (ThenCatch 0 noop noop) /\
  never_rejected items_failed (ThenCatch 0 noop noop).
Proof.
  destruct (wrapped_bind_routes_rejection owner_with_table "items"
              (mkDescriptor items_query None None false) (mkParams false))
    as (Hb & Hlater).
  split; [exact Hb|].
  destruct (Hlater items_failed) as (_ & _ & _ & Hnever).
  apply Hnever. intros x e. discriminate.
Defined.

(** C10, as stated, fails: with [{ ref: query, reject: err => { throw err } }]
    a failure of the subscription rejects [binding], the reject callback
    throws, and the promise [bind] returned is rejected. *)
Lemma wrapped_bind_can_reject :
  (binding "items" rethrowing_query fresh_owner).2
  = Normal (ThenCatch 0 noop rethrow) /\
  ~ never_rejected items_failed (ThenCatch 0 noop rethrow).
Proof.
  split; [reflexivity|].
  intros Hnever. apply (Hnever (JError "permission-denied")). reflexivity.
Qed.

(** * Further properties of the code *)

(** ** The sequence strategy at any index *)

Section SpliceLengths.
Context {A : Type}.
Implicit Types (a items : list A) (n : Z).

Lemma actualStart_le (len : nat) n : (actualStart len n <= len)%nat.
Proof.
  unfold actualStart. destruct (Z.ltb_spec n 0); lia.
Qed.

Lemma splice_length a n (d : nat) items :
  length (splice a n d items)
  = (length a - Nat.min d (length a - actualStart (length a) n)
     + length items)%nat.
Proof.
  unfold splice. pose proof (actualStart_le (length a) n) as Hs.
  rewrite !length_app, length_take, length_drop. lia.
Qed.

Lemma splice_insert_clamped a n (v : A) :
  splice a n 0 [v]
  = take (actualStart (length a) n) a ++ v :: drop (actualStart (length a) n) a.
Proof. unfold splice. cbn [Nat.min]. by rewrite Nat.add_0_r. Qed.

End SpliceLengths.

Section SequenceBounds.
Context {Data Value : Type}.
Variable normalize : Snapshot Data -> Options -> Value.
Variable opts : Options.
Implicit Types (c : list Value) (s : Change Data).

(** X1.  Whatever its [newIndex], an Added event makes the container one
    element longer: the normalized document is in it, at the clamped
    position, and every element that was there is still there. *)
Theorem added_always_inserts c s :
  type s = "added" ->
  let c' := sequence_change normalize opts c s in
  length c' = S (length c) /\
  c' !! actualStart (length c) (newIndex s)
    = Some (normalize (OfChange s) opts) /\
  normalize (OfChange s) opts ∈ c' /\
  (forall x : Value, x ∈ c -> x ∈ c').
Proof.
  intros Ht. cbn zeta. rewrite sequence_change_added by done.
  pose proof (actualStart_le (length c) (newIndex s)) as Hk.
  split; [rewrite splice_length; cbn; lia|].
  rewrite splice_insert_clamped.
  set (k := actualStart (length c) (newIndex s)) in *.
  assert (Hlen : length (take k c) = k) by (rewrite length_take; lia).
  split; [|split].
  - rewrite lookup_app_r by lia. by rewrite Hlen, Nat.sub_diag.
  - apply elem_of_app. right. apply elem_of_cons. by left.
  - intros x Hx. rewrite <- (take_drop k c) in Hx.
    apply elem_of_app in Hx as [Hx|Hx]; apply elem_of_app.
    + by left.
    + right. apply elem_of_cons. by right.
Qed.

(** X2.  No event changes the length of the container by more than one,
    whatever its type and its indices: Added adds one, Removed removes one
    or none, Modified keeps the length or adds one, and an event of any
    other type keeps the container, hence its length, as it is. *)
Theorem length_changes_by_at_most_one c s :
  let c' := sequence_change normalize opts c s in
  (length c - 1 <= length c' <= length c + 1)%nat /\
  (type s = "added" -> length c' = S (length c)) /\
  (type s = "removed" -> (length c' <= length c)%nat) /\
  (type s = "modified" -> (length c <= length c')%nat) /\
  (type s <> "added" -> type s <> "removed" -> type s <> "modified" ->
   c' = c /\ length c' = length c).
Proof.
  cbn zeta.
  destruct (decide (type s = "added")) as [Ha|Ha].
  { rewrite sequence_change_added by done. rewrite splice_length. cbn.
    split; [lia|]. split; [intros _; lia|].
    split; [intros Ht; rewrite Ht in Ha; discriminate|].
    split; [intros Ht; rewrite Ht in Ha; discriminate|].
    intros Hn. by destruct Hn. }
  destruct (decide (type s = "removed")) as [Hr|Hr].
  { rewrite sequence_change_removed by done. rewrite splice_length. cbn [length].
    split; [lia|]. split; [done|]. split; [lia|].
    split; [intros Ht; rewrite Ht in Hr; discriminate|].
    intros _ Hn. by destruct Hn. }
  destruct (decide (type s = "modified")) as [Hm|Hm].
  - destruct (decide (oldIndex s = newIndex s)) as [Hi|Hi].
    + rewrite sequence_change_replaced by done. rewrite splice_length. cbn [length].
      split; [lia|]. split; [done|].
      split; [intros Ht; rewrite Ht in Hm; discriminate|]. split; [lia|].
      intros _ _ Hn. by destruct Hn.
    + rewrite sequence_change_moved by done. rewrite !splice_length. cbn [length].
      split; [lia|]. split; [done|].
      split; [intros Ht; rewrite Ht in Hm; discriminate|]. split; [lia|].
      intros _ _ Hn. by destruct Hn.
  - rewrite sequence_change_ignored by done.
    split; [lia|]. split; [done|]. split; [lia|]. split; [lia|]. done.
Qed.

(** X3.  Indices outside the container are clamped, not refused: an Added
    event past the end appends, a Removed event past the end removes
    nothing, a Removed event at -1 removes the last element, and a Modified
    event with both indices past the end appends instead of replacing. *)
Theorem indices_are_clamped c s :
  (type s = "added" -> (Z.of_nat (length c) <= newIndex s)%Z ->
   sequence_change normalize opts c s = c ++ [normalize (OfChange s) opts]) /\
  (type s = "removed" -> (Z.of_nat (length c) <= oldIndex s)%Z ->
   sequence_change normalize opts c s = c) /\
  (type s = "removed" -> oldIndex s = (-1)%Z ->
   forall x : Value, sequence_change normalize opts (c ++ [x]) s = c) /\
  (type s = "modified" -> oldIndex s = newIndex s ->
   (Z.of_nat (length c) <= newIndex s)%Z ->
   sequence_change normalize opts c s = c ++ [normalize (OfChange s) opts]).
Proof.
  split; [|split; [|split]].
  - intros Ht Hn. rewrite sequence_change_added by done.
    by apply splice_insert_past_end.
  - intros Ht Hn. rewrite sequence_change_removed by done.
    by apply splice_delete_past_end.
  - intros Ht Hn x. rewrite sequence_change_removed by done.
    rewrite Hn. apply splice_delete_minus_one.
  - intros Ht Hi Hn. rewrite sequence_change_replaced by done.
    unfold splice, actualStart.
    destruct (Z.ltb_spec (newIndex s) 0) as [Hneg|_]; [lia|].
    replace (Z.to_nat (Z.min (newIndex s) (Z.of_nat (length c))))
      with (length c) by lia.
    rewrite take_ge by lia. rewrite drop_ge by lia. done.
Qed.

(** X4.  A Removed event at the index of the Added event before it undoes
    that event: the container is as it was. *)
Theorem removed_undoes_added c add rem :
  type add = "added" -> type rem = "removed" ->
  oldIndex rem = newIndex add ->
  (0 <= newIndex add <= Z.of_nat (length c))%Z ->
  sequence_batch normalize opts c [add; rem] = c.
Proof.
  intros Ha Hr Hi Hn. cbn [sequence_batch fold_left].
  rewrite (sequence_change_added _ _ c add) by done.
  rewrite sequence_change_removed by done.
  rewrite splice_insert by done. rewrite Hi.
  set (k := Z.to_nat (newIndex add)).
  assert (Hlen : length (take k c) = k) by (rewrite length_take; lia).
  rewrite splice_delete.
  - fold k. rewrite <- Hlen at 1. rewrite delete_middle. apply take_drop.
  - rewrite length_app, Hlen. cbn [length]. rewrite length_drop. lia.
Qed.

End SequenceBounds.

(** ** The keyed strategy across events *)

Section KeyedEvents.
Context {Data : Type}.
Implicit Types (m : gmap string Data) (s a b : Change Data).

(** What an event does to every mapping alike: a write, a removal or
    nothing, at the id of its document. *)
Lemma keyed_change_cases s :
  (forall m, keyed_change m s = <[doc_id (doc s) := doc_data (doc s)]> m) \/
  (forall m, keyed_change m s = delete (doc_id (doc s)) m) \/
  (forall m, keyed_change m s = m).
Proof.
  destruct (decide (type s = "added")) as [Ha|Ha].
  { left. intros m. apply keyed_change_set. by left. }
  destruct (decide (type s = "removed")) as [Hr|Hr].
  { right. left. intros m. by apply keyed_change_removed. }
  destruct (decide (type s = "modified")) as [Hm|Hm].
  - left. intros m. apply keyed_change_set. by right.
  - right. right. intros m. by apply keyed_change_ignored.
Qed.

(** X5.  Events for different documents commute on a keyed mapping: the
    order in which two of them arrive does not matter. *)
Theorem keyed_changes_commute m a b :
  doc_id (doc a) <> doc_id (doc b) ->
  keyed_change (keyed_change m a) b = keyed_change (keyed_change m b) a.
Proof.
  intros Hne.
  destruct (keyed_change_cases a) as [Ea|[Ea|Ea]],
           (keyed_change_cases b) as [Eb|[Eb|Eb]];
    rewrite ?Ea, ?Eb; try done.
  - by apply insert_insert_ne.
  - by rewrite delete_insert_ne.
  - by rewrite delete_insert_ne.
  - apply delete_delete.
Qed.

(** X6.  A keyed event delivered twice does what it does once; and a
    Removed event after an Added event for a document the mapping did not
    hold gives the mapping back. *)
Theorem keyed_change_idempotent m s :
  keyed_change (keyed_change m s) s = keyed_change m s /\
  (forall a r : Change Data,
   type a = "added" -> type r = "removed" ->
   doc_id (doc r) = doc_id (doc a) ->
   m !! doc_id (doc a) = None ->
   keyed_batch m [a; r] = m).
Proof.
  split.
  - destruct (keyed_change_cases s) as [E|[E|E]]; rewrite !E; try done.
    + apply insert_insert_eq.
    + apply delete_delete_eq.
  - intros a r Ha Hr Hi Hnone. cbn [keyed_batch fold_left].
    rewrite (keyed_change_set _ a) by (by left).
    rewrite keyed_change_removed by done. rewrite Hi.
    by apply delete_insert_id.
Qed.

End KeyedEvents.

(** ** Listeners, promises and the owner, beyond one binding *)

Section LifecycleMore.
Context {Data Value : Type}.
Variable normalize : Snapshot Data -> Options -> Value.
Implicit Types (w : @World Data Value) (l : Listener) (st old : @PState Value).
Implicit Types (ns : list (@Notification Data Value)).

(** A call of [resolve] or [reject]: one more entry in the log, the promise
    settled if it was pending, nothing else touched. *)
Lemma call_resolve_run w p (v : jsval) old :
  promises w !! p = Some old ->
  let r := call_resolve p v w in
  r.2 = Normal tt /\
  globals r.1 = globals w /\ heap r.1 = heap w /\
  vm_props r.1 = vm_props w /\ vm_firestore r.1 = vm_firestore w /\
  listeners r.1 = listeners w /\ unsubscribed r.1 = unsubscribed w /\
  settle_log r.1 = settle_log w ++ [CallResolve p v] /\
  promises r.1 !! p = Some (after_call old (CallResolve p v)).
Proof.
  intros Hp. cbn zeta. unfold call_resolve, update. cbn [fst snd].
  match goal with |- context [settle ?q ?s ?x] =>
    pose proof (settle_frame q s x) as (Eg & Eh & Ev & Ef & El & Eu & Elog);
    rewrite (settle_lookup q s x old) by exact Hp
  end.
  rewrite Eg, Eh, Ev, Ef, El, Eu, Elog. cbn.
  repeat split; try done; by destruct old.
Qed.

Lemma call_reject_run w p (e : jsval) old :
  promises w !! p = Some old ->
  let r := call_reject p e w in
  r.2 = Normal tt /\
  globals r.1 = globals w /\ heap r.1 = heap w /\
  vm_props r.1 = vm_props w /\ vm_firestore r.1 = vm_firestore w /\
  listeners r.1 = listeners w /\ unsubscribed r.1 = unsubscribed w /\
  settle_log r.1 = settle_log w ++ [CallReject p e] /\
  promises r.1 !! p = Some (after_call old (CallReject p e)).
Proof.
  intros Hp. cbn zeta. unfold call_reject, update. cbn [fst snd].
  match goal with |- context [settle ?q ?s ?x] =>
    pose proof (settle_frame q s x) as (Eg & Eh & Ev & Ef & El & Eu & Elog);
    rewrite (settle_lookup q s x old) by exact Hp
  end.
  rewrite Eg, Eh, Ev, Ef, El, Eu, Elog. cbn.
  repeat split; try done; by destruct old.
Qed.

(** [bind] with the side table in place, in full. *)
Lemma bind_with_table w key (source : @Source Value) params t :
  vm_firestore w = Some t ->
  exists b : Bound,
    bind key source params w
    = (subscribed (set_promises (promises w ++ [Pending]) w) key
         (source_ref source) (length (promises w)) t
         (l_strategy (listener_of key source params 0 0)),
       Normal b).
Proof.
  intros Ht.
  set (w0 := set_promises (promises w ++ [Pending]) w).
  assert (Ht0 : vm_firestore w0 = Some t) by done.
  destruct source as [r|d]; cbn [objects_flag source_ref listener_of l_strategy];
    unfold bind.
  - destruct (objects params), (ref_where r);
      unfold and_then, new_promise; fold w0;
      rewrite ?(collections_run w0 _ _ _ t Ht0),
              ?(collectionOfObjects_run w0 _ _ _ t Ht0),
              ?(documents_run w0 _ _ _ t Ht0);
      eexists; reflexivity.
  - destruct (d_objects d), (ref_where (d_ref d));
      unfold and_then, new_promise; fold w0;
      rewrite ?(collections_run w0 _ _ _ t Ht0),
              ?(collectionOfObjects_run w0 _ _ _ t Ht0),
              ?(documents_run w0 _ _ _ t Ht0);
      eexists; reflexivity.
Qed.

(** The same, field by field. *)
Lemma bind_with_table_fields w key (source : @Source Value) params t :
  vm_firestore w = Some t ->
  let r := bind key source params w in
  (exists b, r.2 = Normal b) /\
  globals r.1 = globals w /\
  listeners r.1
  = listeners w
    ++ [listener_of key source params (length (heap w)) (length (promises w))] /\
  heap r.1
  = heap w ++ [initial_container (l_strategy (listener_of key source params 0 0))] /\
  promises r.1 = promises w ++ [Pending] /\
  vm_props r.1 = <[key := JRef (length (heap w))]> (vm_props w) /\
  vm_firestore r.1 = Some (<[key := source_ref source]> t) /\
  unsubscribed r.1 = unsubscribed w /\
  settle_log r.1 = settle_log w.
Proof.
  intros Ht. cbn zeta.
  destruct (bind_with_table w key source params t Ht) as (b & ->).
  cbn. split; [by exists b|]. done.
Qed.

(** X7.  When the first notification of the listener of a collection-mode
    binding ([collections], or [collectionOfObjects] with [vm[key]]
    defined) is a failure, its promise is rejected with the store's error
    and stays so; the listener nevertheless goes on: it completes normally
    on everything that follows, calls [resolve] after every batch, and
    applies every batch to its container -- for [collectionOfObjects], as
    long as [vm[key]] still holds that container. *)
Theorem first_failure_rejects_and_sync_goes_on w h l error rest :
  listeners w !! h = Some l ->
  h ∉ unsubscribed w ->
  collection_listener w l ->
  promises w !! l_promise l = Some Pending ->
  Forall (fun n => from_query n = true) rest ->
  let r := deliver_all normalize h (Failure error :: rest) w in
  r.2 = Normal tt /\
  promises r.1 !! l_promise l = Some (Rejected error) /\
  settle_log r.1
  = settle_log w ++ CallReject (l_promise l) error :: map (call_of l) rest /\
  (forall o : object, attached w l o ->
   heap r.1 !! l_container l
   = Some (replay normalize (defaultOptions (globals w)) o rest)).
Proof.
  intros Hl Hu Hm Hp Hq.
  assert (Hall : Forall (fun n : @Notification Data Value => from_query n = true)
                   (Failure error :: rest))
    by (by constructor).
  destruct (deliver_all_collection_listener normalize (Failure error :: rest)
              w h l Pending Hl Hu Hm Hp Hall)
    as (w' & Hrun & _ & Hlog & Hprom).
  cbn zeta. rewrite Hrun. cbn [fst snd].
  split; [done|]. split; [|split].
  - rewrite Hprom. cbn [map fold_left call_of after_call].
    by rewrite after_calls_settled.
  - by rewrite Hlog.
  - intros o Hat.
    destruct (deliver_all_attached normalize (Failure error :: rest) w h l o
                Pending Hl Hu Hat Hp Hall)
      as (w'' & Hrun' & _ & [Hheap _] & _).
    rewrite Hrun in Hrun'. by injection Hrun' as <-.
Qed.

(** The first callback of [documents] on a document that exists. *)
Lemma documents_next_exists w l (d : DocSnapshot Data) :
  doc_exists d = true ->
  documents_next normalize l d w
  = call_resolve (l_promise l)
      (JNormalized (normalize (OfDocument d) (defaultOptions (globals w))))
      (set_vm_props
         (<[l_key l :=
              JNormalized (normalize (OfDocument d) (defaultOptions (globals w)))]>
            (vm_props w)) w).
Proof.
  intros Hd. unfold documents_next. rewrite Hd.
  unfold documents_exists, documents_resolve, and_then, vm_set, update, vm_get.
  cbn. by rewrite lookup_insert_eq.
Qed.

(** X8.  A snapshot of a document that exists replaces [vm[key]] wholesale
    by the normalized document, leaves heap and side table alone, and calls
    [resolve] with that value.  The promise keeps the document of the first
    snapshot: after a second snapshot [vm[key]] holds the second document
    and the promise still the first. *)
Theorem document_snapshot_replaces_value w l (d1 d2 : DocSnapshot Data) old :
  doc_exists d1 = true -> doc_exists d2 = true ->
  promises w !! l_promise l = Some old ->
  let v1 := JNormalized (normalize (OfDocument d1) (defaultOptions (globals w))) in
  let v2 := JNormalized (normalize (OfDocument d2) (defaultOptions (globals w))) in
  let r1 := documents_next normalize l d1 w in
  let r2 := documents_next normalize l d2 r1.1 in
  r1.2 = Normal tt /\
  vm_props r1.1 = <[l_key l := v1]> (vm_props w) /\
  heap r1.1 = heap w /\ vm_firestore r1.1 = vm_firestore w /\
  settle_log r1.1 = settle_log w ++ [CallResolve (l_promise l) v1] /\
  promises r1.1 !! l_promise l = Some (after_call old (CallResolve (l_promise l) v1)) /\
  r2.2 = Normal tt /\
  vm_props r2.1 !! l_key l = Some v2 /\
  (old = Pending -> promises r2.1 !! l_promise l = Some (Fulfilled v1)).
Proof.
  intros Hd1 Hd2 Hp. cbn zeta.
  rewrite (documents_next_exists w l d1 Hd1).
  match goal with |- context [call_resolve ?p ?v ?x] =>
    pose proof (call_resolve_run x p v old Hp)
      as (Hr & Hg & Hh & Hv & Hf & _ & _ & Hlog & Hprom)
  end.
  rewrite Hr, Hv, Hh, Hf, Hlog, Hprom.
  split; [done|]. split; [done|]. split; [done|]. split; [done|].
  split; [done|]. split; [done|].
  rewrite (documents_next_exists _ l d2 Hd2). rewrite Hg.
  match goal with |- context [call_resolve ?p ?v ?x] =>
    pose proof (call_resolve_run x p v _ Hprom)
      as (Hr2 & _ & _ & Hv2 & _ & _ & _ & _ & Hprom2)
  end.
  rewrite Hr2, Hv2, Hprom2. cbn.
  split; [done|]. split; [apply lookup_insert_eq|].
  by intros ->.
Qed.

(** One event of [collectionOfObjects] on the object [vm[key]] refers to,
    whatever that object is. *)
Lemma keyed_object_event_run w key t (o : object) (s : Change Data) :
  vm_props w !! key = Some (JRef t) ->
  heap w !! t = Some o ->
  keyed_event key s w
  = (set_heap (<[t := keyed_object_change o s]> (heap w)) w, Normal tt).
Proof.
  intros Hk Ht.
  assert (Hw : forall data,
    and_then (vm_get key)
      (fun target => Vue_write target (doc_id (doc s)) data) w
    = (set_heap
         (<[t := object_written (doc_id (doc s)) data o]> (heap w)) w,
       Normal tt)).
  { intros data. unfold and_then, vm_get. rewrite Hk. cbn. unfold update.
    by rewrite (alter_at _ _ _ _ Ht). }
  unfold keyed_event, keyed_object_change.
  destruct (String.eqb (type s) "added"); [by rewrite Hw|].
  destruct (String.eqb (type s) "removed"); [by rewrite Hw|].
  destruct (String.eqb (type s) "modified"); [by rewrite Hw|].
  unfold ret. rewrite list_insert_id by done. by rewrite set_heap_same.
Qed.

Lemma keyed_object_events_run (changes : list (Change Data)) :
  forall w key t (o : object),
  vm_props w !! key = Some (JRef t) ->
  heap w !! t = Some o ->
  forEach changes (keyed_event key) w
  = (set_heap (<[t := fold_left keyed_object_change changes o]> (heap w)) w,
     Normal tt).
Proof.
  induction changes as [|s rest IH]; intros w key t o Hk Ht.
  - cbn. rewrite list_insert_id by done. by rewrite set_heap_same.
  - cbn [forEach]. unfold and_then.
    rewrite (keyed_object_event_run w key t o s Hk Ht).
    rewrite (IH _ key t (keyed_object_change o s)); cbn.
    + by rewrite list_insert_insert_eq.
    + done.
    + apply list_lookup_insert_eq. by eapply lookup_lt_Some.
Qed.

(** On a plain object the events are those of the keyed strategy. *)
Lemma keyed_object_changes_plain (changes : list (Change Data)) :
  forall props : gmap string Data,
  fold_left keyed_object_change changes (@OPlain Data Value props)
  = OPlain (keyed_batch props changes).
Proof.
  induction changes as [|s rest IH]; intros props; [done|].
  cbn [fold_left]. unfold keyed_batch. cbn [fold_left].
  replace (keyed_object_change (@OPlain Data Value props) s)
    with (@OPlain Data Value (keyed_change props s)).
  - apply IH.
  - unfold keyed_object_change, keyed_change.
    by repeat (destruct (String.eqb (type s) _)).
Qed.

(** X9.  A [collectionOfObjects] listener writes each batch to the object
    [vm[key]] refers to when the batch arrives -- a plain object, or
    whatever else the key has been bound to since, an array included --
    which need not be the container it captured: it completes normally,
    only that object changes (on a plain object by the keyed strategy), so
    a captured container that is another object is left as it was, and it
    is the captured container that [resolve] is called with. *)
Theorem keyed_listener_writes_to_property w l t (o : object) changes :
  l_strategy l = CollectionOfObjects ->
  vm_props w !! l_key l = Some (JRef t) ->
  heap w !! t = Some o ->
  let r := notify normalize l (QuerySnapshot changes) w in
  r.2 = Normal tt /\
  heap r.1 !! t = Some (fold_left keyed_object_change changes o) /\
  (forall props : gmap string Data, o = OPlain props ->
   heap r.1 !! t = Some (OPlain (keyed_batch props changes))) /\
  (forall i : nat, i <> t -> heap r.1 !! i = heap w !! i) /\
  vm_props r.1 = vm_props w /\
  settle_log r.1
  = settle_log w ++ [CallResolve (l_promise l) (JRef (l_container l))].
Proof.
  intros Hs Hk Ht. cbn zeta. cbn [notify]. rewrite Hs.
  unfold collectionOfObjects_next, and_then.
  rewrite (keyed_object_events_run changes w (l_key l) t o Hk Ht).
  unfold call_resolve, update. cbn [fst snd].
  match goal with |- context [settle ?q ?s ?x] =>
    pose proof (settle_frame q s x) as (_ & Eh & Ev & _ & _ & _ & Elog)
  end.
  rewrite Eh, Ev, Elog. cbn.
  assert (Hhere : <[t := fold_left keyed_object_change changes o]> (heap w) !! t
                  = Some (fold_left keyed_object_change changes o)).
  { apply list_lookup_insert_eq. by eapply lookup_lt_Some. }
  split; [done|]. split; [exact Hhere|]. split; [|split; [|done]].
  - intros props ->. rewrite Hhere. by rewrite keyed_object_changes_plain.
  - intros i Hi. by apply list_lookup_insert_ne.
Qed.

(** X10.  Binding a key that is already bound releases nothing: both
    listeners are subscribed afterwards, each with a container and a promise
    of its own; [vm[key]] and the side table hold what the second binding
    stored. *)
Theorem rebinding_keeps_first_listener w key (source1 source2 : @Source Value)
    params1 params2 t :
  vm_firestore w = Some t ->
  let r1 := bind key source1 params1 w in
  let r2 := bind key source2 params2 r1.1 in
  listeners r2.1
  = listeners w
    ++ [listener_of key source1 params1 (length (heap w)) (length (promises w));
        listener_of key source2 params2 (S (length (heap w)))
          (S (length (promises w)))] /\
  unsubscribed r2.1 = unsubscribed w /\
  vm_props r2.1 !! key = Some (JRef (S (length (heap w)))) /\
  vm_firestore r2.1
  = Some (<[key := source_ref source2]> t).
Proof.
  intros Ht. cbn zeta.
  destruct (bind_with_table_fields w key source1 params1 t Ht)
    as (_ & _ & Hl1 & Hh1 & Hp1 & _ & Hf1 & Hu1 & _).
  destruct (bind_with_table_fields _ key source2 params2 _ Hf1)
    as (_ & _ & Hl2 & _ & _ & Hv2 & Hf2 & Hu2 & _).
  rewrite Hl2, Hu2, Hv2, Hf2, Hl1, Hu1, Hh1, Hp1.
  rewrite !length_app. cbn [length]. rewrite !Nat.add_1_r.
  split; [by rewrite <- app_assoc|]. split; [done|].
  split; [apply lookup_insert_eq|]. by rewrite insert_insert_eq.
Qed.



(** [ensure_firestore] leaves a side table: the one there was, or an empty
    one. *)
Lemma ensure_firestore_run w :
  ensure_firestore w
  = (set_vm_firestore (Some (default ∅ (vm_firestore w))) w, Normal tt).
Proof.
  unfold ensure_firestore, update.
  destruct (vm_firestore w) eqn:Ht; [|done].
  by destruct w; cbn in *; subst.
Qed.


(** X14.  [bind] itself never throws.  On an owner without a side table the
    binder's first statement throws inside the promise executor: the
    promise [bind] made is rejected with that TypeError, and nothing is
    allocated, installed at [vm[key]] or subscribed. *)
Theorem bind_without_table_rejects w key (source : @Source Value) params :
  vm_firestore w = None ->
  let r := bind key source params w in
  (exists b, r.2 = Normal b) /\
  promises r.1
  = promises w ++ [Rejected (TypeError "cannot set a property of null")] /\
  listeners r.1 = listeners w /\ heap r.1 = heap w /\
  vm_props r.1 = vm_props w /\ vm_firestore r.1 = None /\
  settle_log r.1 = settle_log w.
Proof.
  intros Ht. cbn zeta.
  set (w0 := set_promises (promises w ++ [Pending]) w).
  assert (Ht0 : vm_firestore w0 = None) by done.
  assert (Hp0 : promises w0 !! length (promises w) = Some Pending).
  { cbn. rewrite lookup_app_r by lia. by rewrite Nat.sub_diag. }
  assert (Hs : settle (length (promises w))
                 (Rejected (TypeError "cannot set a property of null")) w0
               = set_promises
                   (promises w
                    ++ [Rejected (TypeError "cannot set a property of null")]) w).
  { unfold settle. rewrite Hp0. cbn.
    replace (length (promises w)) with (length (promises w) + 0)%nat at 1 by lia.
    by rewrite insert_app_r. }
  destruct (binder_without_table w0 key (source_ref source)
              (length (promises w)) Ht0) as (Ec & Eo & Ed).
  destruct source as [r|d]; unfold bind; cbn [source_ref] in *.
  - destruct (objects params), (ref_where r);
      unfold and_then, new_promise; fold w0;
      rewrite ?Ec, ?Eo, ?Ed, Hs; cbn; (split; [by eexists|]); by rewrite Ht.
  - destruct (d_objects d), (ref_where (d_ref d));
      unfold and_then, new_promise; fold w0;
      rewrite ?Ec, ?Eo, ?Ed, Hs; cbn; (split; [by eexists|]); by rewrite Ht.
Qed.

(** X15.  [$bindCollectionAsObject] on a reference to a single document
    yields a binding that no snapshot ever fulfils: its promise is pending
    after the call; every document snapshot the store delivers to its
    listener (still subscribed) makes the listener throw a TypeError
    ([docChanges] is not a method of a document snapshot) and leaves the
    world, the promise included, as it was; only a failure of the
    subscription settles the promise, by rejecting it with the store's
    error, and document snapshots go on throwing afterwards. *)
Theorem keyed_binding_of_document_only_rejects w key (ref : Ref) :
  length (listeners w) ∉ unsubscribed w ->
  let h := length (listeners w) in
  let p := length (promises w) in
  let w' := (bindCollectionAsObject key (Plain ref) w).1 in
  promises w' !! p = Some Pending /\
  (forall d : DocSnapshot Data,
   deliver normalize h (DocumentSnapshot d) w'
   = (w', Throw (TypeError "doc.docChanges is not a function"))) /\
  (forall error : jsval,
   let r := deliver normalize h (Failure error) w' in
   r.2 = Normal tt /\
   promises r.1 !! p = Some (Rejected error) /\
   settle_log r.1 = settle_log w ++ [CallReject p error] /\
   forall d : DocSnapshot Data,
   deliver normalize h (DocumentSnapshot d) r.1
   = (r.1, Throw (TypeError "doc.docChanges is not a function"))).
Proof.
  intros Hu. cbn zeta. unfold bindCollectionAsObject, and_then.
  rewrite ensure_firestore_run.
  set (w1 := set_vm_firestore (Some (default ∅ (vm_firestore w))) w).
  assert (Ht1 : vm_firestore w1 = Some (default ∅ (vm_firestore w))) by done.
  destruct (bind_with_table_fields w1 key (Plain ref) (mkParams true) _ Ht1)
    as (_ & _ & Hl & _ & Hp & Hv & _ & Hus & Hlog).
  set (w' := (bind key (Plain ref) (mkParams true) w1).1) in *.
  set (l := mkListener ref CollectionOfObjects key (length (heap w))
              (length (promises w))).
  assert (Hl' : listeners w' !! length (listeners w) = Some l).
  { rewrite Hl. cbn [listeners w1 set_vm_firestore].
    rewrite lookup_app_r by lia. by rewrite Nat.sub_diag. }
  assert (Hu' : length (listeners w) ∉ unsubscribed w') by (by rewrite Hus).
  assert (Hp' : promises w' !! l_promise l = Some Pending).
  { rewrite Hp. cbn. rewrite lookup_app_r by lia. by rewrite Nat.sub_diag. }
  assert (Hthrows : forall x (d : DocSnapshot Data),
            listeners x = listeners w' -> unsubscribed x = unsubscribed w' ->
            deliver normalize (length (listeners w)) (DocumentSnapshot d) x
            = (x, Throw (TypeError "doc.docChanges is not a function"))).
  { intros x d Hxl Hxu. unfold deliver. rewrite Hxl, Hl', Hxu.
    by rewrite bool_decide_eq_false_2 by done. }
  split; [exact Hp'|]. split; [intros d; by apply Hthrows|].
  intros error.
  assert (Hm : collection_listener w' l).
  { exists (JRef (length (heap w))). split; [|done].
    rewrite Hv. cbn. by rewrite lookup_insert_eq. }
  destruct (deliver_collection_listener normalize w' (length (listeners w)) l
              Pending (Failure error) Hl' Hu' Hm Hp' eq_refl)
    as (w'' & Hrun & (_ & _ & _ & Hls & Huns) & Hlog' & Hprom).
  rewrite Hrun. cbn [fst snd].
  split; [done|]. split; [exact Hprom|]. split.
  - rewrite Hlog', Hlog. done.
  - intros d. by apply Hthrows.
Qed.

(** X16.  [install] takes [options.key] only when it is a non-empty string
    and [options.enumerable] whenever it is defined, [false] included;
    without options it changes nothing, and installing the same options
    twice is installing them once.  The options are read when a batch
    arrives: a [collections] listener subscribed before [install] normalizes
    the batches after it with the new options. *)
Theorem install_sets_options w (options : option InstallOptions) :
  let w' := (install options w).1 in
  (forall o k, options = Some o -> opt_key o = Some k -> k <> "" ->
   keyName (defaultOptions (globals w')) = k) /\
  (forall o, options = Some o -> opt_key o = Some "" \/ opt_key o = None ->
   keyName (defaultOptions (globals w')) = keyName (defaultOptions (globals w))) /\
  (forall o e, options = Some o -> opt_enumerable o = Some e ->
   enumerable (defaultOptions (globals w')) = e) /\
  (options = None -> defaultOptions (globals w') = defaultOptions (globals w)) /\
  (install options w').1 = w' /\
  (forall l items changes,
   heap w !! l_container l = Some (OArray items) ->
   heap (collections_next normalize l changes w').1 !! l_container l
   = Some (OArray
       (sequence_batch normalize
          (install_options options (defaultOptions (globals w))) items changes))).
Proof.
  cbn zeta. split; [|split; [|split; [|split; [|split]]]].
  - intros o k -> Hk Hne. cbn. unfold install_options. rewrite Hk.
    apply String.eqb_neq in Hne. rewrite Hne.
    by destruct (opt_enumerable o).
  - intros o -> [Hk|Hk]; cbn; unfold install_options; rewrite Hk; cbn;
      by destruct (opt_enumerable o).
  - intros o e -> He. cbn. unfold install_options. by rewrite He.
  - by intros ->.
  - unfold install, update, set_globals. cbn. f_equal. f_equal.
    unfold install_options.
    destruct options as [[[k|] [e|]]|]; cbn; try done;
      destruct (String.eqb k ""); cbn; try done;
      destruct (String.eqb k ""); done.
  - intros l items changes Hc.
    destruct (collections_next_run normalize (install options w).1 l items
                changes Hc) as (_ & -> & _).
    cbn. apply list_lookup_insert_eq. by eapply lookup_lt_Some.
Qed.

(** X17.  Where [console] does have a function [warning], a snapshot of a
    missing document rejects a pending promise with what that function
    returns, not with the message, and [resolve(vm[key])] is called all the
    same after [reject]. *)
Theorem missing_document_with_console_warning w l t f (d : DocSnapshot Data) :
  doc_exists d = false ->
  console_warning (globals w) = Some f ->
  vm_firestore w = Some t ->
  promises w !! l_promise l = Some Pending ->
  let r := documents_next normalize l d w in
  r.2 = Normal tt /\
  vm_firestore r.1 = Some (delete (l_key l) t) /\
  promises r.1 !! l_promise l = Some (Rejected (f (missing_message (l_key l)))) /\
  settle_log r.1
  = settle_log w
    ++ [CallReject (l_promise l) (f (missing_message (l_key l)));
        CallResolve (l_promise l) (default JUndefined (vm_props w !! l_key l))].
Proof.
  intros Hd Hc Ht Hp. cbn zeta. unfold documents_next. rewrite Hd.
  unfold documents_absent, documents_resolve, and_then.
  rewrite (firestore_delete_run w (l_key l) t Ht).
  unfold console_warning_call. cbn [globals set_vm_firestore]. rewrite Hc.
  set (w1 := set_vm_firestore (Some (delete (l_key l) t)) w).
  assert (Hp1 : promises w1 !! l_promise l = Some Pending) by done.
  destruct (call_reject_run w1 (l_promise l) (f (missing_message (l_key l)))
              Pending Hp1)
    as (_ & _ & _ & Hv & Hf & _ & _ & Hlog & Hprom).
  destruct (call_reject (l_promise l) (f (missing_message (l_key l))) w1)
    as [w2 c2] eqn:E2. cbn [fst snd] in *.
  assert (c2 = Normal tt) as ->.
  { unfold call_reject, update in E2. by injection E2 as _ <-. }
  unfold vm_get. cbn [fst snd].
  destruct (call_resolve_run w2 (l_promise l)
              (default JUndefined (vm_props w2 !! l_key l)) _ Hprom)
    as (Hr & _ & _ & _ & Hf3 & _ & _ & Hlog3 & Hprom3).
  rewrite Hr, Hf3, Hlog3, Hprom3, Hf, Hlog, Hv. cbn.
  split; [done|]. split; [done|]. split; [done|].
  by rewrite <- app_assoc.
Qed.


Section Created.
Variable ensureRefs : @M Data Value unit.

(** What [created] needs of [ensureRefs]: it leaves the owner with a side
    table and touches nothing else. *)
Hypothesis ensureRefs_table :
  forall w, exists t, ensureRefs w = (set_vm_firestore (Some t) w, Normal tt).

(** The loop of [created] over the declared bindings. *)
Lemma created_loop (bs : list (string * @Source Value)) : forall w t,
  vm_firestore w = Some t ->
  let r := forEach bs
             (fun b => and_then (bind b.1 b.2 (mkParams false)) (fun _ => ret tt))
             w in
  r.2 = Normal tt /\
  listeners r.1
  = listeners w ++ listeners_of bs (length (heap w)) (length (promises w)) /\
  promises r.1 = promises w ++ replicate (length bs) Pending /\
  length (heap r.1) = (length (heap w) + length bs)%nat /\
  unsubscribed r.1 = unsubscribed w /\
  exists t', vm_firestore r.1 = Some t' /\
    forall k : string, is_Some (t !! k) \/ k ∈ bs.*1 -> is_Some (t' !! k).
Proof.
  induction bs as [|[key source] rest IH]; intros w t Ht; cbn zeta.
  - cbn. rewrite !app_nil_r, Nat.add_0_r. repeat split; try done.
    exists t. split; [done|]. intros k [Hk|Hk]; [done|]. by apply elem_of_nil in Hk.
  - destruct (bind_with_table_fields w key source (mkParams false) t Ht)
      as ([b Hb] & _ & Hl & Hh & Hp & _ & Hf & Hu & _).
    destruct (bind key source (mkParams false) w) as [w1 c1] eqn:E1.
    cbn [fst snd] in *. subst c1.
    set (F := fun b : string * @Source Value =>
                and_then (bind b.1 b.2 (mkParams false)) (fun _ => ret tt)) in *.
    assert (Estep : forEach ((key, source) :: rest) F w = forEach rest F w1).
    { cbn [forEach]. unfold and_then at 1. unfold F at 1. unfold and_then at 1.
      cbn [fst snd]. rewrite E1. done. }
    rewrite Estep.
    destruct (IH w1 _ Hf) as (Hr & Hl' & Hp' & Hh' & Hu' & t' & Hf' & Hin).
    split; [exact Hr|].
    rewrite Hl', Hp', Hh', Hu', Hl, Hp, Hh, Hu, !length_app. cbn [length].
    rewrite !Nat.add_1_r.
    split; [by rewrite <- app_assoc|].
    split; [by rewrite <- app_assoc|].
    split; [lia|]. split; [done|].
    exists t'. split; [exact Hf'|].
    intros k [Hk|Hk]; apply Hin.
    + left. destruct (decide (k = key)) as [->|Hne].
      * rewrite lookup_insert_eq. by eexists.
      * by rewrite lookup_insert_ne.
    + cbn in Hk. apply elem_of_cons in Hk as [->|Hk].
      * left. rewrite lookup_insert_eq. by eexists.
      * by right.
Qed.

(** X19.  [created] does nothing for an owner that declares no bindings
    (none at all, or a function that returns a falsy value).  For declared
    bindings it never throws and subscribes one listener per declaration, in
    the order of the declarations, each with a fresh container and a fresh
    pending promise; every declared key is in the side table afterwards. *)
Theorem created_binds_every_declaration w (bs : list (string * @Source Value)) :
  created ensureRefs NotDeclared w = (w, Normal tt) /\
  (forall f, f w = None ->
   created ensureRefs (DeclaredFunction f) w = (w, Normal tt)) /\
  (forall f, f w = Some bs ->
   created ensureRefs (DeclaredFunction f) w
   = created ensureRefs (DeclaredObject bs) w) /\
  let r := created ensureRefs (DeclaredObject bs) w in
  r.2 = Normal tt /\
  listeners r.1
  = listeners w ++ listeners_of bs (length (heap w)) (length (promises w)) /\
  promises r.1 = promises w ++ replicate (length bs) Pending /\
  length (heap r.1) = (length (heap w) + length bs)%nat /\
  unsubscribed r.1 = unsubscribed w /\
  exists t', vm_firestore r.1 = Some t' /\
    forall k : string, k ∈ bs.*1 -> is_Some (t' !! k).
Proof.
  split; [done|]. split; [by intros f Hf; unfold created; rewrite Hf|].
  split; [by intros f Hf; unfold created; rewrite Hf|].
  cbn zeta.
  destruct (ensureRefs_table w) as (t & Et).
  assert (E : created ensureRefs (DeclaredObject bs) w
              = forEach bs
                  (fun b => and_then (bind b.1 b.2 (mkParams false))
                              (fun _ => ret tt))
                  (set_vm_firestore (Some t) w)).
  { unfold created, and_then at 1. by rewrite Et. }
  rewrite E.
  destruct (created_loop bs (set_vm_firestore (Some t) w) t eq_refl)
    as (Hr & Hl & Hp & Hh & Hu & t' & Hf & Hin).
  split; [exact Hr|]. split; [exact Hl|]. split; [exact Hp|].
  split; [exact Hh|]. split; [exact Hu|].
  exists t'. split; [exact Hf|]. intros k Hk. apply Hin. by right.
Qed.

End Created.

End LifecycleMore.

(** * The further properties at work on the concrete store *)

Lemma added_always_inserts_witness :
  length (sequence_change spec_normalize initialOptions
            [spec_normalize (OfChange (added 0 (sample_doc "A" "Ann"))) initialOptions]
            (added 7 (sample_doc "B" "Bob")))
  = 2%nat.
Proof.
  destruct (added_always_inserts spec_normalize initialOptions
              [spec_normalize (OfChange (added 0 (sample_doc "A" "Ann"))) initialOptions]
              (added 7 (sample_doc "B" "Bob")) eq_refl) as (Hlen & _).
  exact Hlen.
Defined.

Lemma length_changes_by_at_most_one_witness :
  (length (sequence_change spec_normalize initialOptions
             [spec_normalize (OfChange (added 0 (sample_doc "A" "Ann"))) initialOptions]
             (removed 5 (sample_doc "B" "Bob")))
   <= 1)%nat /\
  (1 <= length (sequence_change spec_normalize initialOptions
                  [spec_normalize (OfChange (added 0 (sample_doc "A" "Ann"))) initialOptions]
                  (modified 0 3 (sample_doc "A" "Anna"))))%nat /\
  length (sequence_change spec_normalize initialOptions
            [spec_normalize (OfChange (added 0 (sample_doc "A" "Ann"))) initialOptions]
            (added 7 (sample_doc "B" "Bob")))
  = 2%nat /\
  sequence_change spec_normalize initialOptions
    [spec_normalize (OfChange (added 0 (sample_doc "A" "Ann"))) initialOptions]
    (touched (sample_doc "B" "Bob"))
  = [spec_normalize (OfChange (added 0 (sample_doc "A" "Ann"))) initialOptions].
Proof.
  split; [|split; [|split]].
  - destruct (length_changes_by_at_most_one spec_normalize initialOptions
        [spec_normalize (OfChange (added 0 (sample_doc "A" "Ann"))) initialOptions]
        (removed 5 (sample_doc "B" "Bob"))) as (_ & _ & Hrem & _).
    exact (Hrem eq_refl).
  - destruct (length_changes_by_at_most_one spec_normalize initialOptions
        [spec_normalize (OfChange (added 0 (sample_doc "A" "Ann"))) initialOptions]
        (modified 0 3 (sample_doc "A" "Anna"))) as (_ & _ & _ & Hmod & _).
    exact (Hmod eq_refl).
  - destruct (length_changes_by_at_most_one spec_normalize initialOptions
        [spec_normalize (OfChange (added 0 (sample_doc "A" "Ann"))) initialOptions]
        (added 7 (sample_doc "B" "Bob"))) as (_ & Hadd & _).
    exact (Hadd eq_refl).
  - destruct (length_changes_by_at_most_one spec_normalize initialOptions
        [spec_normalize (OfChange (added 0 (sample_doc "A" "Ann"))) initialOptions]
        (touched (sample_doc "B" "Bob"))) as (_ & _ & _ & _ & Hother).
    destruct Hother as [Hsame _]; [discriminate..|].
    exact Hsame.
Defined.

Lemma indices_are_clamped_witness :
  sequence_change spec_normalize initialOptions
    [spec_normalize (OfChange (added 0 (sample_doc "A" "Ann"))) initialOptions]
    (added 7 (sample_doc "B" "Bob"))
  = [spec_normalize (OfChange (added 0 (sample_doc "A" "Ann"))) initialOptions;
     spec_normalize (OfChange (added 7 (sample_doc "B" "Bob"))) initialOptions]
  /\
  sequence_change spec_normalize initialOptions
    ([spec_normalize (OfChange (added 0 (sample_doc "A" "Ann"))) initialOptions]
     ++ [spec_normalize (OfChange (added 1 (sample_doc "B" "Bob"))) initialOptions])
    (removed (-1) (sample_doc "A" "Ann"))
  = [spec_normalize (OfChange (added 0 (sample_doc "A" "Ann"))) initialOptions].
Proof.
  split.
  - destruct (indices_are_clamped spec_normalize initialOptions
        [spec_normalize (OfChange (added 0 (sample_doc "A" "Ann"))) initialOptions]
        (added 7 (sample_doc "B" "Bob"))) as (Hadd & _).
    apply (Hadd eq_refl). cbn. lia.
  - destruct (indices_are_clamped spec_normalize initialOptions
        [spec_normalize (OfChange (added 0 (sample_doc "A" "Ann"))) initialOptions]
        (removed (-1) (sample_doc "A" "Ann"))) as (_ & _ & Hlast & _).
    exact (Hlast eq_refl eq_refl _).
Defined.

Lemma removed_undoes_added_witness :
  sequence_batch spec_normalize initialOptions
    [spec_normalize (OfChange (added 0 (sample_doc "A" "Ann"))) initialOptions]
    [added 1 (sample_doc "B" "Bob"); removed 1 (sample_doc "B" "Bob")]
  = [spec_normalize (OfChange (added 0 (sample_doc "A" "Ann"))) initialOptions].
Proof.
  apply (removed_undoes_added spec_normalize initialOptions _
           (added 1 (sample_doc "B" "Bob")) (removed 1 (sample_doc "B" "Bob"))
           eq_refl eq_refl eq_refl).
  cbn. lia.
Defined.

Lemma keyed_changes_commute_witness :
  keyed_change
    (keyed_change (∅ : gmap string FieldData) (added 0 (sample_doc "A" "Ann")))
    (removed 0 (sample_doc "B" "Bob"))
  = keyed_change
      (keyed_change (∅ : gmap string FieldData) (removed 0 (sample_doc "B" "Bob")))
      (added 0 (sample_doc "A" "Ann")).
Proof.
  apply (keyed_changes_commute (∅ : gmap string FieldData)
           (added 0 (sample_doc "A" "Ann")) (removed 0 (sample_doc "B" "Bob"))).
  discriminate.
Defined.

Lemma keyed_change_idempotent_witness :
  keyed_batch (∅ : gmap string FieldData)
    [added 0 (sample_doc "A" "Ann"); removed 0 (sample_doc "A" "Ann")]
  = ∅.
Proof.
  destruct (keyed_change_idempotent (∅ : gmap string FieldData)
              (added 0 (sample_doc "A" "Ann"))) as (_ & Hback).
  exact (Hback (added 0 (sample_doc "A" "Ann")) (removed 0 (sample_doc "A" "Ann"))
           eq_refl eq_refl eq_refl eq_refl).
Defined.

Lemma first_failure_rejects_and_sync_goes_on_witness :
  (let r := deliver_all spec_normalize 0
              [Failure (JError "unavailable");
               QuerySnapshot [added 0 (sample_doc "A" "Ann")]]
              items_bound in
   promises r.1 !! 0%nat = Some (Rejected (JError "unavailable")) /\
   settle_log r.1
   = [CallReject 0 (JError "unavailable"); CallResolve 0 (JRef 0)] /\
   heap r.1 !! 0%nat
   = Some (OArray
       [spec_normalize (OfChange (added 0 (sample_doc "A" "Ann"))) initialOptions])) /\
  (let r := deliver_all spec_normalize 0
              [Failure (JError "unavailable");
               QuerySnapshot [added 0 (sample_doc "A" "Ann")]]
              items_bound_as_objects in
   promises r.1 !! 0%nat = Some (Rejected (JError "unavailable")) /\
   settle_log r.1
   = [CallReject 0 (JError "unavailable"); CallResolve 0 (JRef 0)] /\
   heap r.1 !! 0%nat = Some (OPlain {["A" := [("name", "Ann")]]})) /\
  (let r := deliver_all spec_normalize 0
              [Failure (JError "unavailable");
               QuerySnapshot [added 0 (sample_doc "A" "Ann")]]
              items_rebound_as_array in
   r.2 = Normal tt /\
   promises r.1 !! 0%nat = Some (Rejected (JError "unavailable")) /\
   settle_log r.1
   = [CallReject 0 (JError "unavailable"); CallResolve 0 (JRef 0)]).
Proof.
  assert (Hq : Forall (fun n : @Notification FieldData Normalized =>
                         from_query n = true)
                 [QuerySnapshot [added 0 (sample_doc "A" "Ann")]])
    by (repeat constructor).
  split; [|split].
  - assert (Hu : 0%nat ∉ unsubscribed items_bound) by (apply not_elem_of_nil).
    destruct (first_failure_rejects_and_sync_goes_on spec_normalize items_bound
                0 items_listener (JError "unavailable") _
                eq_refl Hu I eq_refl Hq) as (_ & Hp & Hlog & Hh).
    cbn zeta. split; [exact Hp|]. split; [exact Hlog|].
    exact (Hh (OArray []) (conj eq_refl I)).
  - assert (Hu : 0%nat ∉ unsubscribed items_bound_as_objects)
      by (apply not_elem_of_nil).
    assert (Hm : collection_listener items_bound_as_objects
                   first_objects_listener)
      by (exists (JRef 0); split; [reflexivity|discriminate]).
    destruct (first_failure_rejects_and_sync_goes_on spec_normalize
                items_bound_as_objects 0 first_objects_listener
                (JError "unavailable") _ eq_refl Hu Hm eq_refl Hq)
      as (_ & Hp & Hlog & Hh).
    cbn zeta. split; [exact Hp|]. split; [exact Hlog|].
    exact (Hh (OPlain ∅) (conj eq_refl eq_refl)).
  - assert (Hu : 0%nat ∉ unsubscribed items_rebound_as_array)
      by (apply not_elem_of_nil).
    assert (Hm : collection_listener items_rebound_as_array
                   first_objects_listener)
      by (exists (JRef 1); split; [reflexivity|discriminate]).
    destruct (first_failure_rejects_and_sync_goes_on spec_normalize
                items_rebound_as_array 0 first_objects_listener
                (JError "unavailable") _ eq_refl Hu Hm eq_refl Hq)
      as (Hr & Hp & Hlog & _).
    cbn zeta. split; [exact Hr|]. split; [exact Hp|exact Hlog].
Defined.

Lemma document_snapshot_replaces_value_witness :
  let r1 := documents_next spec_normalize profile_listener
              (sample_doc "42" "Zed") profile_bound in
  let r2 := documents_next spec_normalize profile_listener
              (sample_doc "42" "Zoe") r1.1 in
  vm_props r2.1 !! "profile"
  = Some (JNormalized
      (spec_normalize (OfDocument (sample_doc "42" "Zoe")) initialOptions)) /\
  promises r2.1 !! 0%nat
  = Some (Fulfilled (JNormalized
      (spec_normalize (OfDocument (sample_doc "42" "Zed")) initialOptions))).
Proof.
  destruct (document_snapshot_replaces_value spec_normalize profile_bound
              profile_listener (sample_doc "42" "Zed") (sample_doc "42" "Zoe")
              Pending eq_refl eq_refl eq_refl)
    as (_ & _ & _ & _ & _ & _ & _ & Hv & Hp).
  cbn zeta. split; [exact Hv|exact (Hp eq_refl)].
Defined.

Lemma keyed_listener_writes_to_property_witness :
  (let r := notify spec_normalize first_objects_listener
              (QuerySnapshot [added 0 (sample_doc "A" "Ann")])
              items_rebound_as_objects in
   heap r.1 !! 1%nat = Some (OPlain {["A" := [("name", "Ann")]]}) /\
   heap r.1 !! 0%nat = Some (OPlain ∅) /\
   settle_log r.1 = [CallResolve 0 (JRef 0)]) /\
  (let r := notify spec_normalize first_objects_listener
              (QuerySnapshot [added 0 (sample_doc "A" "Ann")])
              items_rebound_as_array in
   r.2 = Normal tt /\
   heap r.1 !! 1%nat
   = Some (OWritten (OArray []) "A" (Some [("name", "Ann")])) /\
   heap r.1 !! 0%nat = Some (OPlain ∅) /\
   settle_log r.1 = [CallResolve 0 (JRef 0)]).
Proof.
  split.
  - destruct (keyed_listener_writes_to_property spec_normalize
                items_rebound_as_objects first_objects_listener 1 (OPlain ∅)
                [added 0 (sample_doc "A" "Ann")] eq_refl eq_refl eq_refl)
      as (_ & _ & Ht & Hc & _ & Hlog).
    cbn zeta. split; [exact (Ht ∅ eq_refl)|].
    split; [|exact Hlog].
    apply (Hc 0%nat). discriminate.
  - destruct (keyed_listener_writes_to_property spec_normalize
                items_rebound_as_array first_objects_listener 1 (OArray [])
                [added 0 (sample_doc "A" "Ann")] eq_refl eq_refl eq_refl)
      as (Hr & Ht & _ & Hc & _ & Hlog).
    cbn zeta. split; [exact Hr|]. split; [exact Ht|].
    split; [|exact Hlog].
    apply (Hc 0%nat). discriminate.
Defined.

Lemma rebinding_keeps_first_listener_witness :
  length (listeners
    (bind "items" (Plain items_query) (mkParams false)
       (bind "items" (Plain items_query) (mkParams false) owner_with_table).1).1)
  = 2%nat.
Proof.
  destruct (rebinding_keeps_first_listener owner_with_table "items"
              (Plain items_query) (Plain items_query)
              (mkParams false) (mkParams false) ∅ eq_refl) as (Hl & _).
  cbn zeta in Hl. rewrite Hl. reflexivity.
Defined.

Lemma bind_without_table_rejects_witness :
  promises (bind "items" (Plain items_query) (mkParams false) fresh_owner).1
  = [Rejected (TypeError "cannot set a property of null")] /\
  listeners (bind "items" (Plain items_query) (mkParams false) fresh_owner).1
  = [].
Proof.
  destruct (bind_without_table_rejects fresh_owner "items" (Plain items_query)
              (mkParams false) eq_refl) as (_ & Hp & Hl & _).
  split; [exact Hp|exact Hl].
Defined.

Lemma keyed_binding_of_document_only_rejects_witness :
  let w' := (bindCollectionAsObject "profile" (Plain profile_document)
               fresh_owner).1 in
  (deliver spec_normalize 0 (DocumentSnapshot (sample_doc "42" "Zed")) w').2
  = Throw (TypeError "doc.docChanges is not a function") /\
  promises (deliver spec_normalize 0 (Failure (JError "unavailable")) w').1
    !! 0%nat
  = Some (Rejected (JError "unavailable")).
Proof.
  destruct (keyed_binding_of_document_only_rejects spec_normalize fresh_owner
              "profile" profile_document)
    as (_ & Hd & Hf); [apply not_elem_of_nil|].
  cbn zeta in *. split.
  - specialize (Hd (sample_doc "42" "Zed")).
    change (length (listeners fresh_owner)) with 0%nat in Hd.
    by rewrite Hd.
  - destruct (Hf (JError "unavailable")) as (_ & Hp & _).
    exact Hp.
Defined.

Lemma install_sets_options_witness :
  keyName (defaultOptions (globals
    (install (Some (mkInstallOptions (Some "docId") (Some false))) items_bound).1))
  = "docId" /\
  enumerable (defaultOptions (globals
    (install (Some (mkInstallOptions (Some "docId") (Some false))) items_bound).1))
  = false /\
  keyName (defaultOptions (globals
    (install (Some (mkInstallOptions (Some "") None)) items_bound).1))
  = "id".
Proof.
  destruct (install_sets_options spec_normalize items_bound
              (Some (mkInstallOptions (Some "docId") (Some false))))
    as (Hk & _ & He & _).
  destruct (install_sets_options spec_normalize items_bound
              (Some (mkInstallOptions (Some "") None)))
    as (_ & Hempty & _).
  split; [|split].
  - apply (Hk _ "docId" eq_refl eq_refl). discriminate.
  - exact (He _ false eq_refl eq_refl).
  - exact (Hempty _ eq_refl (or_introl eq_refl)).
Defined.

Lemma missing_document_with_console_warning_witness :
  let r := documents_next spec_normalize profile_listener missing_profile
             profile_bound_with_warning in
  r.2 = Normal tt /\
  promises r.1 !! 0%nat = Some (Rejected JUndefined) /\
  settle_log r.1 = [CallReject 0 JUndefined; CallResolve 0 (JRef 0)].
Proof.
  destruct (missing_document_with_console_warning spec_normalize
              profile_bound_with_warning profile_listener
              (<["profile" := profile_document]> ∅) (fun _ => JUndefined)
              missing_profile eq_refl eq_refl eq_refl eq_refl)
    as (Hr & _ & Hp & Hlog).
  cbn zeta. split; [exact Hr|]. split; [exact Hp|exact Hlog].
Defined.


Lemma created_binds_every_declaration_witness :
  listeners (created ensure_firestore (DeclaredObject declared_bindings)
               fresh_owner).1
  = [items_listener; mkListener profile_document Documents "profile" 1 1] /\
  promises (created ensure_firestore (DeclaredObject declared_bindings)
              fresh_owner).1
  = [Pending; Pending].
Proof.
  destruct (created_binds_every_declaration ensure_firestore
              (fun w => ex_intro _ (default ∅ (vm_firestore w))
                          (ensure_firestore_run w))
              fresh_owner declared_bindings)
    as (_ & _ & _ & _ & Hl & Hp & _).
  split; [exact Hl|exact Hp].
Defined.
